(** * api_music: stream resolution, catalogue aggregation and search

    A shallow embedding of [src/api_music/main.py] (a FastAPI service in
    front of yt-dlp) and the properties of its three handlers:

    - [fetch_stream_url] / [get_stream_url]: the 30 minute cache in front
      of the provider, the audio-only filter and the choice of the best
      format;
    - [get_artist_songs]: the loop over [ARTIST_URLS] with one
      [try]/[except] per artist;
    - [search_songs]: the normalisation of the search result.

    Python values are embedded as the scalars the handlers inspect:
    [None], [int], [str] and the finite [float]s.  A dict is a
    [gmap string pyval].  Exceptions and the mutable module state
    ([song_cache], the wall clock read by [datetime.now()], the calls made
    to yt-dlp) are threaded through the monad [M]; what [print] does
    depends on standard output, a parameter of the handler that prints. *)

From Stdlib Require Import ZArith QArith Lqa String DecimalString.
From stdpp Require Import gmap strings list fin_maps.

Open Scope Z_scope.

(** ** Python values *)

(** A finite float: the number it is, and its [repr], which is what
    [str] and an f-string give.  [nan] and the infinities are left out. *)
Record pyfloat := {
  float_value : Q;
  float_repr : string
}.

#[global] Instance Q_eq_dec : EqDecision Q.
Proof. solve_decision. Defined.

#[global] Instance pyfloat_eq_dec : EqDecision pyfloat.
Proof. solve_decision. Defined.

Inductive pyval :=
  | VNone
  | VInt (z : Z)
  | VFloat (x : pyfloat)
  | VStr (s : string).

#[global] Instance pyval_eq_dec : EqDecision pyval.
Proof. solve_decision. Defined.

(** The number an [int] or a [float] is. *)
Definition value_of (v : pyval) : Q :=
  match v with
  | VInt z => inject_Z z
  | VFloat x => float_value x
  | _ => 0%Q
  end.

(** [a < b] on rationals. *)
Definition Qltb (a b : Q) : bool := negb (Qle_bool b a).

(** A dict whose values are scalars: a delivery format, a flat entry. *)
Abbreviation pydict := (gmap string pyval).

(** [bool(v)]. *)
Definition truthy (v : pyval) : bool :=
  match v with
  | VNone => false
  | VInt z => negb (z =? 0)
  | VFloat x => negb (Qeq_bool (float_value x) 0)
  | VStr s => negb (String.eqb s "")
  end.

(** [str(v)]. *)
Definition py_str (v : pyval) : string :=
  match v with
  | VNone => "None"
  | VInt z => NilZero.string_of_int (Z.to_int z)
  | VFloat x => float_repr x
  | VStr s => s
  end.

(** [a == b] on scalars: numbers by value, whatever their types. *)
Definition py_eq (a b : pyval) : bool :=
  match a, b with
  | VNone, VNone => true
  | VStr s, VStr t => String.eqb s t
  | (VInt _ | VFloat _), (VInt _ | VFloat _) => Qeq_bool (value_of a) (value_of b)
  | _, _ => false
  end.

(** [a or b]. *)
Definition py_or (a b : pyval) : pyval := if truthy a then a else b.

(** [d.get(k)] and [d.get(k, dflt)]. *)
Definition dict_get (d : pydict) (k : string) : pyval := default VNone (d !! k).
Definition dict_get_or (d : pydict) (k : string) (dflt : pyval) : pyval :=
  default dflt (d !! k).

(** ** Exceptions *)

Inductive exn :=
  | KeyError
  | TypeError
  | IndexError
  | AttributeError
  | DownloadError (msg : string)  (* whatever [extract_info] raises *)
  | ValidationError               (* pydantic, on building a model *)
  | UnicodeEncodeError            (* [print], on a text it cannot write *)
  | HTTPException (status_code : Z).

Inductive result (A : Type) :=
  | Ok (a : A)
  | Raise (e : exn).
Arguments Ok {A} a.
Arguments Raise {A} e.

#[global] Instance result_ret : MRet result := fun A a => Ok a.
#[global] Instance result_bind : MBind result := fun A B f r =>
  match r with
  | Ok a => f a
  | Raise e => Raise e
  end.

(** [d[k]]. *)
Definition dict_getitem (d : pydict) (k : string) : result pyval :=
  match d !! k with
  | Some v => Ok v
  | None => Raise KeyError
  end.

(** [l[0]]. *)
Definition list_getitem0 {A} (l : list A) : result A :=
  match l with
  | x :: _ => Ok x
  | [] => Raise IndexError
  end.

(** [a < b]: numbers by value, strings lexicographically, anything else
    is a [TypeError]. *)
Definition py_lt (a b : pyval) : result bool :=
  match a, b with
  | (VInt _ | VFloat _), (VInt _ | VFloat _) => Ok (Qltb (value_of a) (value_of b))
  | VStr s, VStr t => Ok (String.ltb s t)
  | _, _ => Raise TypeError
  end.

(** ** [sorted(l, key=key, reverse=reverse)]

    CPython's sort is stable and compares keys with [<] only; an
    exception raised by a comparison leaves [sorted] at once.  With
    [reverse=True] the list is reversed, sorted and reversed again, which
    keeps elements with equal keys in their original order.  The stable
    sort is written as an insertion sort: the stable result is unique, and
    a comparison raises in one sort exactly when it does in the other (a
    list of one element is never compared; in a longer list every element
    is compared with some other, and on these values comparability is an
    equivalence). *)

Section sorted.
Context {A : Type} (key : A → pyval).

Fixpoint insert_sorted (x : A) (l : list A) : result (list A) :=
    match l with
    | [] => Ok [x]
    | y :: ys =>
        c ← py_lt (key y) (key x);
        if c : bool then (r ← insert_sorted x ys; Ok (y :: r))
        else Ok (x :: y :: ys)
    end.

Fixpoint sort_stable (l : list A) : result (list A) :=
    match l with
    | [] => Ok []
    | x :: xs => s ← sort_stable xs; insert_sorted x s
    end.

Definition py_sorted (reverse : bool) (l : list A) : result (list A) :=
    if reverse then (s ← sort_stable (rev l); Ok (rev s))
    else sort_stable l.
End sorted.

(** ** The provider and the module state *)

Inductive ydl_opts := YDL_OPTS | STREAM_OPTS.

(** The dict returned by [extract_info]: its scalar keys in [fields], and
    the two keys that hold lists when they do ([fields] is looked up
    for them otherwise). *)
Record info := {
  fields : pydict;
  entries : option (list (option pydict));
  formats : option (list pydict)
}.

Inductive outcome :=
  | Raises (msg : string)
  | Returns (r : option info).

(** What a call to yt-dlp does: the options, the URL and the time of the
    call give the outcome and the time the call takes, in microseconds. *)
Definition provider := ydl_opts → string → Z → outcome * Z.

Record world := {
  song_cache : gmap string (pyval * Z);
  wall_clock : Z;                            (* microseconds *)
  provider_calls : list (ydl_opts * string)
}.

Definition M (A : Type) : Type := world → result A * world.

#[global] Instance M_ret : MRet M := fun A a w => (Ok a, w).
#[global] Instance M_bind : MBind M := fun A B f m w =>
  match m w with
  | (Ok a, w') => f a w'
  | (Raise e, w') => (Raise e, w')
  end.

(** A pure computation that may raise. *)
Definition lift {A} (r : result A) : M A := fun w => (r, w).

(** [raise e]. *)
Definition raise {A} (e : exn) : M A := fun w => (Raise e, w).

(** [try: body except Exception as e: handler e].  What the body did to
    the state before it raised stays done. *)
Definition try_except {A} (body : M A) (handler : exn → M A) : M A :=
  fun w =>
    match body w with
    | (Ok a, w') => (Ok a, w')
    | (Raise e, w') => handler e w'
    end.

(** ** Standard output

    What [get_artist_songs] prints, line by line: [Fetching] is line 99,
    [NoResults] line 103, [ErrorFetching] line 133 and [FatalError] line
    137, with what the f-string puts into the text.  Standard output
    takes a line or not; [print] raises on a line it does not take, as
    when the encoding of the stream has no code for a character of the
    provider's message.  The other handlers write through [logging],
    which keeps the errors of its streams to itself. *)
Inductive line :=
  | Fetching (artist_url : string)
  | NoResults (artist_url : string)
  | ErrorFetching (artist_url : string) (artist_error : exn)
  | FatalError (e : exn).

Definition console := line → bool.

Definition print (stdout : console) (l : line) : M unit :=
  fun w => if stdout l then (Ok (), w) else (Raise UnicodeEncodeError, w).

(** A standard output that takes every line. *)
Definition every_line : console := fun _ => true.

(** [datetime.now()]. *)
Definition datetime_now : M Z := fun w => (Ok (wall_clock w), w).

(** [song_cache] read, and [song_cache[k] = v]. *)
Definition read_cache : M (gmap string (pyval * Z)) :=
  fun w => (Ok (song_cache w), w).
Definition cache_setitem (k : string) (v : pyval * Z) : M unit :=
  fun w => (Ok (), {| song_cache := <[k := v]> (song_cache w);
                      wall_clock := wall_clock w;
                      provider_calls := provider_calls w |}).

(** [timedelta(minutes=30)], in microseconds. *)
Definition CACHE_TIMEOUT : Z := 30 * 60 * 1000000.

Definition ARTIST_URLS : list string := [
  "https://music.youtube.com/channel/UCJls2FMEbRYxi28jcuKe2vA";
  "https://music.youtube.com/channel/UC527A_XB_c7XftocVOIVNeA";
  "https://music.youtube.com/channel/UCRI-Ds5eY70A4oeHggAFBbg";
  "https://music.youtube.com/channel/UCZn4r7heNOPY-C43YIywnVA";
  "https://music.youtube.com/channel/UCn0hl0XZ3bFREX2SCBZK3Pw";
  "https://music.youtube.com/channel/UCYBtTmBP2QgHgalgsv2v5LA";
  "https://music.youtube.com/channel/UCUn9Xjvg8fwqpa58-_XO6zw"
]%string.

(** ** Stream resolution *)

(** The condition of the comprehension on line 167. *)
Definition is_audio_format (f : pydict) : bool :=
  negb (py_eq (dict_get f "acodec") (VStr "none"))
  && py_eq (dict_get f "vcodec") (VStr "none").

Definition audio_formats (formats : list pydict) : list pydict :=
  List.filter is_audio_format formats.

(** [lambda x: x.get('quality', 0)]. *)
Definition quality (x : pydict) : pyval := dict_get_or x "quality" (VInt 0).

(** Iterating over what a key holds when it is not a list: the empty
    string gives nothing, the characters of another string have no
    [get], [None] and numbers are not iterable. *)
Definition iter_scalar {A} (v : pyval) : result (list A) :=
  match v with
  | VStr "" => Ok []
  | VStr _ => Raise AttributeError
  | _ => Raise TypeError
  end.

(** [info['formats']], as the comprehension iterates over it: [None] is
    not subscriptable, a missing key is a [KeyError]. *)
Definition info_formats (i : option info) : result (list pydict) :=
  match i with
  | None => Raise TypeError
  | Some d =>
      match formats d with
      | Some fs => Ok fs
      | None =>
          match fields d !! "formats" with
          | Some v => iter_scalar v
          | None => Raise KeyError
          end
      end
  end.

(** Lines 168 and 169. *)
Definition select_stream_url (audio : list pydict) : result pyval :=
  s ← py_sorted quality true audio;
  best_audio ← list_getitem0 s;
  dict_getitem best_audio "url".

(** ** The response models *)

Record Song := {
  title : string;
  url : string;
  thumbnail : string;
  duration : string;
  video_id : string
}.

Record SongResponse := {
  artist_url : string;
  artist_name : string;
  songs : list Song
}.

(** How pydantic validates a field declared [str]: a [str] passes and
    [None] never does; a number is turned into its [str] by version 1 and
    refused by version 2. *)
Inductive pydantic := PydanticV1 | PydanticV2.

Definition validate_str (pyd : pydantic) (v : pyval) : result string :=
  match v with
  | VStr s => Ok s
  | VInt _ | VFloat _ =>
      match pyd with
      | PydanticV1 => Ok (py_str v)
      | PydanticV2 => Raise ValidationError
      end
  | VNone => Raise ValidationError
  end.

(** [Song(title=.., url=.., thumbnail=.., duration=.., video_id=..)]. *)
Definition new_Song (pyd : pydantic)
    (title url thumbnail duration video_id : pyval) : result Song :=
  t ← validate_str pyd title;
  u ← validate_str pyd url;
  th ← validate_str pyd thumbnail;
  d ← validate_str pyd duration;
  v ← validate_str pyd video_id;
  Ok {| title := t; url := u; thumbnail := th; duration := d; video_id := v |}.

(** [SongResponse(artist_url=.., artist_name=.., songs=..)]. *)
Definition new_SongResponse (pyd : pydantic)
    (artist_url artist_name : pyval) (songs : list Song) : result SongResponse :=
  u ← validate_str pyd artist_url;
  n ← validate_str pyd artist_name;
  Ok {| artist_url := u; artist_name := n; songs := songs |}.

(** [not entry]: [None] and the empty dict. *)
Definition entry_falsy (entry : option pydict) : bool :=
  match entry with
  | None => true
  | Some e => bool_decide (e = ∅)
  end.

(** The body of the loop over the entries, the same text on lines 111 to
    125 and 190 to 204: [None] is [continue], [Some] the song appended. *)
Definition song_of_entry (pyd : pydantic) (entry : option pydict)
    : result (option Song) :=
  if entry_falsy entry then Ok None
  else
    let e := default ∅ entry in
    let video_id := dict_get_or e "id" (VStr "") in
    if negb (truthy video_id) then Ok None
    else
      song ← new_Song pyd
        (dict_get_or e "title" (VStr ""))
        (VStr ("https://music.youtube.com/watch?v=" +:+ py_str video_id))
        (py_or (dict_get_or e "thumbnail" (VStr ""))
               (VStr ("https://i.ytimg.com/vi/" +:+ py_str video_id
                      +:+ "/default.jpg")))
        (VStr (py_str (dict_get_or e "duration" (VStr "0"))))
        video_id;
      Ok (Some song).

(** [for entry in ..: ..; songs.append(song)]. *)
Fixpoint collect_songs (pyd : pydantic) (es : list (option pydict))
    (songs : list Song) : result (list Song) :=
  match es with
  | [] => Ok songs
  | entry :: rest =>
      o ← song_of_entry pyd entry;
      collect_songs pyd rest
        (match o with Some song => songs ++ [song] | None => songs end)
  end.

(** [not result] for the dict [extract_info] returns. *)
Definition info_falsy (r : info) : bool :=
  bool_decide (fields r = ∅)
  && bool_decide (entries r = None) && bool_decide (formats r = None).

(** ['entries' in result]. *)
Definition has_entries (r : info) : bool :=
  bool_decide (is_Some (entries r))
  || bool_decide (is_Some (fields r !! "entries")).

(** [result['entries']] as the loop iterates over it, when the key is
    there. *)
Definition iter_entries (r : info) : result (list (option pydict)) :=
  match entries r with
  | Some es => Ok es
  | None => iter_scalar (dict_get (fields r) "entries")
  end.

(** Lines 97 and 109 to 125: the songs of one result. *)
Definition artist_songs (pyd : pydantic) (r : info) : result (list Song) :=
  if has_entries r
  then (es ← iter_entries r; collect_songs pyd es [])
  else Ok [].

Section handlers.
Variable ydl : provider.
Variable pyd : pydantic.
Variable stdout : console.

  (** [ydl.extract_info(url, download=False)] under the given options. *)
Definition extract_info (opts : ydl_opts) (url : string) : M (option info) :=
    fun w =>
      let '(o, dt) := ydl opts url (wall_clock w) in
      let w' := {| song_cache := song_cache w;
                   wall_clock := wall_clock w + dt;
                   provider_calls := provider_calls w ++ [(opts, url)] |} in
      match o with
      | Raises msg => (Raise (DownloadError msg), w')
      | Returns r => (Ok r, w')
      end.

  (** Lines 158 to 161: [Some] is the early [return cached_data]. *)
Definition cache_lookup (cache_key : string) : M (option pyval) :=
    cache ← read_cache;
    match cache !! cache_key with
    | Some (cached_data, timestamp) =>
        now ← datetime_now;
        if bool_decide (now - timestamp < CACHE_TIMEOUT)
        then mret (Some cached_data)
        else mret None
    | None => mret None
    end.

  (** Lines 163 to 175. *)
Definition resolve_stream (video_id cache_key : string) : M pyval :=
    try_except
      (i ← extract_info STREAM_OPTS
             ("https://music.youtube.com/watch?v=" +:+ video_id);
       formats ← lift (info_formats i);
       stream_url ← lift (select_stream_url (audio_formats formats));
       now ← datetime_now;
       _ ← cache_setitem cache_key (stream_url, now);
       mret stream_url)
      (fun e => raise (HTTPException 404)).

Definition fetch_stream_url (video_id : string) : M pyval :=
    let cache_key := "stream_" +:+ video_id in
    hit ← cache_lookup cache_key;
    match hit with
    | Some cached_data => mret cached_data
    | None => resolve_stream video_id cache_key
    end.

  (** The handler logs and re-raises. *)
Definition get_stream_url (video_id : string) : M pyval :=
    try_except (fetch_stream_url video_id) (fun e => raise e).

(** ** Aggregation *)

(** Lines 97 to 131, the body of the inner [try]: the value is the list
    [responses] after it. *)
Definition artist_body (artist_url : string) (responses : list SongResponse)
    : M (list SongResponse) :=
  _ ← print stdout (Fetching artist_url);
  result ← extract_info YDL_OPTS artist_url;
  match result with
  | None => _ ← print stdout (NoResults artist_url); mret responses
  | Some r =>
      if info_falsy r
      then (_ ← print stdout (NoResults artist_url); mret responses)
      else
        let artist_name := dict_get_or (fields r) "channel" (VStr "Unknown Artist") in
        songs ← lift (artist_songs pyd r);
        response ← lift (new_SongResponse pyd (VStr artist_url) artist_name songs);
        mret (responses ++ [response])
  end.

(** Lines 95 to 134: the loop, one [try]/[except] per artist.  The
    handler prints before it goes on; what its [print] raises is raised
    inside the outer [try]. *)
Fixpoint artist_loop (urls : list string) (responses : list SongResponse)
    : M (list SongResponse) :=
  match urls with
  | [] => mret responses
  | artist_url :: rest =>
      responses' ← try_except (artist_body artist_url responses)
                              (fun artist_error =>
                                 _ ← print stdout (ErrorFetching artist_url artist_error);
                                 mret responses);
      artist_loop rest responses'
  end.

(** Lines 92 to 138: [responses] as the outer [try] leaves it. *)
Definition collect_artists (urls : list string) : M (list SongResponse) :=
  try_except (artist_loop urls [])
             (fun e => _ ← print stdout (FatalError e);
                       raise (HTTPException 500)).

(** The handler over a list of locators; lines 140 to 143 end it. *)
Definition get_artist_songs_from (urls : list string) : M (list SongResponse) :=
  responses ← collect_artists urls;
  match responses with
  | [] => raise (HTTPException 404)
  | _ => mret responses
  end.

Definition get_artist_songs : M (list SongResponse) :=
  get_artist_songs_from ARTIST_URLS.

(** ** Search *)

Definition search_songs (query : string) : M (list Song) :=
  try_except
    (results ← extract_info YDL_OPTS ("ytsearch10:" +:+ query);
     match results with
     | None => mret []
     | Some r =>
         if info_falsy r || negb (has_entries r) then mret []
         else lift (es ← iter_entries r; collect_songs pyd es [])
     end)
    (fun e => raise (HTTPException 500)).
End handlers.

(** The loop and the handler when standard output takes every line. *)
Definition aggregate (ydl : provider) (pyd : pydantic) (urls : list string)
    : M (list SongResponse) :=
  collect_artists ydl pyd every_line urls.

Definition get_artist_songs_of (ydl : provider) (pyd : pydantic)
    (urls : list string) : M (list SongResponse) :=
  get_artist_songs_from ydl pyd every_line urls.

(** ** Definitions for the statements *)


Definition is_int (v : pyval) : Prop :=
  match v with
  | VInt _ => True
  | _ => False
  end.

#[global] Instance is_int_dec v : Decision (is_int v).
Proof. destruct v; simpl; apply _. Defined.


(** Whether a value is a number, [int] or [float], and the key of an
    element as a number. *)
Definition number (v : pyval) : Prop :=
  match v with
  | VInt _ | VFloat _ => True
  | _ => False
  end.

#[global] Instance number_dec v : Decision (number v).
Proof. destruct v; simpl; apply _. Defined.

Definition num_key {A} (key : A → pyval) (x : A) : Q := value_of (key x).

(** The quality of a format as the specification has it: the number in
    its 'quality' field, 0 for a format without the field. *)
Definition quality_field (f : pydict) : Q :=
  match f !! "quality" with
  | Some v => value_of v
  | None => 0%Q
  end.

(** The 'quality' field holds a number when it is there. *)
Definition numeric_quality (f : pydict) : Prop :=
  match f !! "quality" with
  | Some v => number v
  | None => True
  end.

#[global] Instance numeric_quality_dec f : Decision (numeric_quality f).
Proof. unfold numeric_quality. destruct (f !! "quality"); apply _. Defined.

(** The filter in the words of the specification: the audio codec is
    present and not "none", the video codec is absent or "none". *)
Definition audio_only_as_specified (f : pydict) : bool :=
  match f !! "acodec" with
  | Some a => negb (py_eq a (VStr "none"))
  | None => false
  end
  && match f !! "vcodec" with
     | Some v => py_eq v (VStr "none")
     | None => true
     end.

(** What line 167 keeps, on the fields of the dict. *)
Definition kept_by_filter (f : pydict) : Prop :=
  f !! "acodec" ≠ Some (VStr "none") ∧ f !! "vcodec" = Some (VStr "none").

#[global] Instance kept_by_filter_dec f : Decision (kept_by_filter f).
Proof. unfold kept_by_filter. apply _. Defined.

(** A format with its four fields. *)
Definition fmt (acodec vcodec : string) (q : Z) (u : string) : pydict :=
  {[ "acodec" := VStr acodec; "vcodec" := VStr vcodec;
     "quality" := VInt q; "url" := VStr u ]}.

(** Two audio formats of quality 3, after one of quality 2 and a video
    format of quality 9. *)
Definition some_formats : list pydict :=
  [ fmt "opus" "none" 2 "low";
    fmt "mp4a" "avc1" 9 "video";
    fmt "opus" "none" 3 "first";
    fmt "mp4a" "none" 3 "second" ].

(** Formats as the provider sends them, the qualities floats or
    integers: two audio formats of quality 3 (the integer 3, then the
    float 3.0) after one of quality 2.5, a video format of quality 9.5
    and an audio format without the field. *)
Definition pyfloat_of (value : Q) (repr : string) : pyval :=
  VFloat {| float_value := value; float_repr := repr |}.

Definition float_formats : list pydict :=
  [ {[ "acodec" := VStr "opus"; "vcodec" := VStr "none";
       "quality" := pyfloat_of (5 # 2) "2.5"; "url" := VStr "low" ]};
    {[ "acodec" := VStr "mp4a"; "vcodec" := VStr "avc1";
       "quality" := pyfloat_of (19 # 2) "9.5"; "url" := VStr "video" ]};
    fmt "opus" "none" 3 "first";
    {[ "acodec" := VStr "mp4a"; "vcodec" := VStr "none";
       "quality" := pyfloat_of 3 "3.0"; "url" := VStr "second" ]};
    {[ "acodec" := VStr "mp4a"; "vcodec" := VStr "none"; "url" := VStr "bare" ]} ].

(** The cache key and the urls handed to the provider. *)
Definition stream_key (video_id : string) : string := "stream_" +:+ video_id.
Definition watch_url (video_id : string) : string :=
  "https://music.youtube.com/watch?v=" +:+ video_id.

(** The world once a call that took [dt] has been made. *)
Definition called (opts : ydl_opts) (url : string) (dt : Z) (w : world) : world :=
  {| song_cache := song_cache w;
     wall_clock := wall_clock w + dt;
     provider_calls := provider_calls w ++ [(opts, url)] |}.

(** The same world with another cache. *)
Definition with_cache (c : gmap string (pyval * Z)) (w : world) : world :=
  {| song_cache := c;
     wall_clock := wall_clock w;
     provider_calls := provider_calls w |}.

(** The entry of the key that the check of line 160 accepts, if any. *)
Definition fresh_entry (key : string) (w : world) : option pyval :=
  match song_cache w !! key with
  | Some (cached_data, timestamp) =>
      if bool_decide (wall_clock w - timestamp < CACHE_TIMEOUT)
      then Some cached_data else None
  | None => None
  end.

(** What the provider's answer resolves to, before any caching. *)
Definition resolved (o : outcome) : result pyval :=
  match o with
  | Raises msg => Raise (DownloadError msg)
  | Returns i => fs ← info_formats i; select_stream_url (audio_formats fs)
  end.

(** [entry.get('id', '')]. *)
Definition entry_id (e : pydict) : pyval := dict_get_or e "id" (VStr "").

(** The entries the loop does not skip: not [None], not empty, with an
    id that is not falsy. *)
Definition kept_entry (entry : option pydict) : option pydict :=
  match entry with
  | Some e => if negb (bool_decide (e = ∅)) && truthy (entry_id e)
              then Some e else None
  | None => None
  end.

Definition kept_entries (es : list (option pydict)) : list pydict :=
  omap kept_entry es.

(** Whether a value is a string. *)
Definition is_str (v : pyval) : Prop :=
  match v with
  | VStr _ => True
  | _ => False
  end.

#[global] Instance is_str_dec v : Decision (is_str v).
Proof. destruct v; simpl; apply _. Defined.

(** An entry whose id and title are strings (the title may be missing)
    and whose thumbnail is a string, falsy or missing. *)
Definition typed_entry (e : pydict) : Prop :=
  is_str (entry_id e) ∧
  is_str (dict_get_or e "title" (VStr "")) ∧
  is_str (py_or (dict_get_or e "thumbnail" (VStr "")) (VStr "")).

#[global] Instance typed_entry_dec e : Decision (typed_entry e).
Proof. unfold typed_entry. apply _. Defined.

(** The duration of a track, from its entry. *)
Definition duration_of (e : pydict) : string :=
  match e !! "duration" with
  | None => "0"
  | Some v => py_str v
  end.

Definition search_url (query : string) : string := "ytsearch10:" +:+ query.

(** What the search returns on the provider's answer. *)
Definition searched (pyd : pydantic) (o : outcome) : result (list Song) :=
  match o with
  | Raises _ => Raise (HTTPException 500)
  | Returns None => Ok []
  | Returns (Some r) =>
      if info_falsy r || negb (has_entries r) then Ok []
      else match es ← iter_entries r; collect_songs pyd es [] with
           | Ok songs => Ok songs
           | Raise _ => Raise (HTTPException 500)
           end
  end.

(** [result.get('channel', 'Unknown Artist')]. *)
Definition channel_of (r : info) : pyval :=
  dict_get_or (fields r) "channel" (VStr "Unknown Artist").

(** The batch a locator contributes on the provider's answer, if any. *)
Definition batch (pyd : pydantic) (src : string * outcome) : option SongResponse :=
  match src.2 with
  | Returns (Some r) =>
      if info_falsy r then None
      else match songs ← artist_songs pyd r;
                 new_SongResponse pyd (VStr src.1) (channel_of r) songs with
           | Ok response => Some response
           | Raise _ => None
           end
  | _ => None
  end.

(** The entries the loop of lines 110 to 125 goes through. *)
Definition listed_entries (r : info) : list (option pydict) :=
  if has_entries r
  then match iter_entries r with Ok es => es | Raise _ => [] end
  else [].

Section calls.
Variable ydl : provider.

(** The answers the provider gives along the loop, each call made when
    the one before has returned, and the world after the last of them. *)
Fixpoint outcomes (urls : list string) (w : world) : list outcome :=
  match urls with
  | [] => []
  | u :: rest =>
      (ydl YDL_OPTS u (wall_clock w)).1
      :: outcomes rest (called YDL_OPTS u (ydl YDL_OPTS u (wall_clock w)).2 w)
  end.

Fixpoint listed (urls : list string) (w : world) : world :=
  match urls with
  | [] => w
  | u :: rest => listed rest (called YDL_OPTS u (ydl YDL_OPTS u (wall_clock w)).2 w)
  end.
End calls.

(** ** Sample data *)

(** Three entries, the second without an id. *)
Definition sample_entries : list (option pydict) :=
  [ Some {[ "id" := VStr "a1"; "title" := VStr "Satu"; "duration" := VInt 213 ]};
    Some {[ "title" := VStr "Dua" ]};
    Some {[ "id" := VStr "c3"; "title" := VStr "Tiga"; "thumbnail" := VStr "t.jpg" ]} ].

(** An entry without a duration, and its song. *)
Definition sample_entry : pydict :=
  {[ "id" := VStr "c3"; "title" := VStr "Tiga"; "thumbnail" := VStr "t.jpg" ]}.

Definition sample_song : Song :=
  {| title := "Tiga";
     url := "https://music.youtube.com/watch?v=c3";
     thumbnail := "t.jpg";
     duration := "0";
     video_id := "c3" |}.

(** The value returned, nothing when an exception is raised. *)
Definition songs_of {A} (r : result (list A)) : list A :=
  match r with
  | Ok l => l
  | Raise _ => []
  end.

(** The results the sample provider returns. *)
Definition sample_listing (name : string) : info :=
  {| fields := {[ "channel" := VStr name ]};
     entries := Some sample_entries;
     formats := None |}.

(** Two formats with a codec field missing. *)
Definition no_vcodec : pydict := {[ "acodec" := VStr "opus"; "url" := VStr "u1" ]}.
Definition no_acodec : pydict := {[ "vcodec" := VStr "none"; "url" := VStr "u2" ]}.

(** A world whose cache holds, for the video "abc", an entry stored at
    time 0, read 30 minutes later. *)
Definition stale_world : world :=
  {| song_cache := {[ "stream_abc" := (VStr "old", 0) ]};
     wall_clock := 1800000000;
     provider_calls := [] |}.

Definition sample_info (fs : list pydict) : info :=
  {| fields := ∅; entries := None; formats := Some fs |}.

(** A provider: the video "abc" has audio formats, the video "clip" has
    a video format only, any other video fails; the locator "artist2"
    fails, any other listing answers with [sample_entries]. *)
Definition sample_ydl : provider := fun opts url t =>
  match opts with
  | STREAM_OPTS =>
      if String.eqb url (watch_url "abc")
      then (Returns (Some (sample_info some_formats)), 2000000)
      else if String.eqb url (watch_url "clip")
      then (Returns (Some (sample_info [fmt "mp4a" "avc1" 9 "video"])), 2000000)
      else (Raises "ERROR: Video unavailable", 1000000)
  | YDL_OPTS =>
      if String.eqb url "artist2" then (Raises "ERROR: Unable to download", 1000000)
      else (Returns (Some (sample_listing url)), 3000000)
  end.

Definition empty_world : world :=
  {| song_cache := ∅; wall_clock := 0; provider_calls := [] |}.

(** ** The application *)

(** The three routes (lines 89, 145 and 177) and what they answer. *)
Inductive request :=
  | GetArtistSongs
  | GetStreamUrl (video_id : string)
  | SearchSongs (query : string).

Inductive response :=
  | ArtistSongs (responses : list SongResponse)
  | StreamUrl (stream_url : pyval)
  | Songs (songs : list Song).

(** The same world at another time. *)
Definition at_time (t : Z) (w : world) : world :=
  {| song_cache := song_cache w;
     wall_clock := t;
     provider_calls := provider_calls w |}.

Section app.
Variable ydl : provider.
Variable pyd : pydantic.
Variable stdout : console.

Definition route (req : request) : M response :=
  match req with
  | GetArtistSongs =>
      responses ← get_artist_songs ydl pyd stdout; mret (ArtistSongs responses)
  | GetStreamUrl video_id =>
      stream_url ← get_stream_url ydl video_id; mret (StreamUrl stream_url)
  | SearchSongs query =>
      songs ← search_songs ydl pyd query; mret (Songs songs)
  end.

(** Requests handled one after the other, each with the time at which
    its handler starts.  No handler awaits anything but
    [fetch_stream_url], which awaits nothing, so the event loop runs
    each handler to its end before the next.  A request that the rate
    limiter refuses runs no handler: it is not in the list. *)
Fixpoint serve (reqs : list (Z * request)) (w : world) : world :=
  match reqs with
  | [] => w
  | (t, req) :: rest => serve rest (route req (at_time t w)).2
  end.
End app.

(** A computation that leaves [song_cache] as it found it. *)
Definition keeps_cache {A} (m : M A) : Prop :=
  ∀ w, song_cache (m w).2 = song_cache w.

(** [f"https://i.ytimg.com/vi/{video_id}/default.jpg"]. *)
Definition default_thumbnail (video_id : string) : string :=
  "https://i.ytimg.com/vi/" +:+ video_id +:+ "/default.jpg".

(** A result is the empty dict. *)
Definition empty_info (r : info) : Prop :=
  fields r = ∅ ∧ entries r = None ∧ formats r = None.

(** An answer of the provider with nothing to list: it raises, or
    returns [None] or the empty dict. *)
Definition nothing_listed (o : outcome) : Prop :=
  match o with
  | Raises _ => True
  | Returns None => True
  | Returns (Some r) => empty_info r
  end.

(** What the loop of lines 110 to 125 makes of the title and the
    thumbnail of an entry, and the url of the song it builds. *)
Definition normalised (e : pydict) (s : Song) : Prop :=
  title s = match e !! "title" with
            | Some v => py_str v
            | None => ""
            end ∧
  thumbnail s = match e !! "thumbnail" with
                | Some t => if truthy t then py_str t
                            else default_thumbnail (video_id s)
                | None => default_thumbnail (video_id s)
                end ∧
  url s = "https://music.youtube.com/watch?v=" +:+ video_id s.

(** ** Sample data for the edge cases *)

(** Whether a text is ASCII. *)
Definition is_ascii (s : string) : bool :=
  forallb (λ c, match c with Ascii.Ascii _ _ _ _ _ _ _ b7 => negb b7 end)
          (list_ascii_of_string s).

(** A standard output in ASCII: it takes a line when the locator and the
    message of the provider in it are ASCII (the messages of Python's own
    errors are). *)
Definition ascii_stdout : console := fun l =>
  let message e := match e with DownloadError msg => is_ascii msg | _ => true end in
  match l with
  | Fetching u | NoResults u => is_ascii u
  | ErrorFetching u e => is_ascii u && message e
  | FatalError e => message e
  end.

(** A provider that fails on "artist2" with a message that is not
    ASCII, and lists [sample_entries] for any other locator. *)
Definition accent_ydl : provider := fun opts url t =>
  match opts with
  | STREAM_OPTS => (Returns None, 1000000)
  | YDL_OPTS =>
      if String.eqb url "artist2"
      then (Raises "ERROR: Vidéo non disponible", 1000000)
      else (Returns (Some (sample_listing url)), 1000000)
  end.

(** A provider whose only format has no audio codec field. *)
Definition codec_ydl : provider := fun opts url t =>
  (Returns (Some (sample_info [no_acodec])), 1000000).

(** An entry whose duration is [None], and a provider that lists it. *)
Definition null_duration_entry : pydict :=
  {[ "id" := VStr "a1"; "title" := VStr "Satu"; "duration" := VNone ]}.

Definition null_duration_ydl : provider := fun opts url t =>
  (Returns (Some {| fields := {[ "channel" := VStr "Bernadya" ]};
                    entries := Some [Some null_duration_entry];
                    formats := None |}), 1000000).

(** The best audio format has no url; the other has one. *)
Definition best_without_url : pydict :=
  {[ "acodec" := VStr "opus"; "vcodec" := VStr "none"; "quality" := VInt 5 ]}.

Definition formats_best_without_url : list pydict :=
  [ fmt "mp4a" "none" 3 "lower"; best_without_url ].

(** Two audio formats with their urls, the quality of one is [None]. *)
Definition null_quality_format : pydict :=
  {[ "acodec" := VStr "opus"; "vcodec" := VStr "none";
     "quality" := VNone; "url" := VStr "nq" ]}.

Definition formats_null_quality : list pydict :=
  [ fmt "mp4a" "none" 3 "three"; null_quality_format ].

(** An entry with an id and a title that is [None], among good ones. *)
Definition null_title_entry : pydict := {[ "id" := VStr "b2"; "title" := VNone ]}.

Definition entries_null_title : list (option pydict) :=
  sample_entries ++ [Some null_title_entry].

Definition null_title_listing : info :=
  {| fields := {[ "channel" := VStr "x" ]};
     entries := Some entries_null_title;
     formats := None |}.

(** A result with a channel and no entries key. *)
Definition bare_listing : info :=
  {| fields := {[ "channel" := VStr "Dewa 19" ]}; entries := None; formats := None |}.

Definition empty_dict : info :=
  {| fields := ∅; entries := None; formats := None |}.

(** A provider for the edge cases, by the last word of what it is asked. *)
Definition edge_ydl : provider := fun opts url t =>
  match opts with
  | STREAM_OPTS =>
      if String.eqb url (watch_url "nourl")
      then (Returns (Some (sample_info formats_best_without_url)), 1000000)
      else if String.eqb url (watch_url "nullq")
      then (Returns (Some (sample_info formats_null_quality)), 1000000)
      else (Returns None, 1000000)
  | YDL_OPTS =>
      if String.eqb url "none" then (Returns None, 1000000)
      else if String.eqb url "empty" then (Returns (Some empty_dict), 1000000)
      else if String.eqb url "bare" then (Returns (Some bare_listing), 1000000)
      else if String.eqb url "nulltitle" || String.eqb url (search_url "nulltitle")
      then (Returns (Some null_title_listing), 1000000)
      else if String.eqb url (search_url "down")
      then (Raises "ERROR: Unable to download", 1000000)
      else (Returns (Some (sample_listing url)), 1000000)
  end.


(** * Properties *)

(** ** The stable sort on numeric keys *)

(** Equal keys stay in their order under [reverse=True]. *)
Example py_sorted_ex :
  py_sorted (λ p : Z * string, VInt p.1) true
            [(1, "a"); (3, "b"); (2, "c"); (3, "d")]
  = Ok [(3, "b"); (3, "d"); (2, "c"); (1, "a")].
Proof. reflexivity. Qed.

Lemma elem_of_rev {A} (l : list A) (x : A) : x ∈ rev l ↔ x ∈ l.
Proof. rewrite !list_elem_of_In. symmetry. apply in_rev. Qed.

Lemma Qltb_lt a b : Qltb a b = true ↔ (a < b)%Q.
Proof.
  unfold Qltb. rewrite negb_true_iff. split.
  - intros H. apply Qnot_le_lt. intros Hle. apply Qle_bool_iff in Hle. congruence.
  - intros H. destruct (Qle_bool b a) eqn:E; [|done]. apply Qle_bool_iff in E. lra.
Qed.

Lemma Qltb_ge a b : Qltb a b = false ↔ (b <= a)%Q.
Proof.
  destruct (Qltb a b) eqn:E.
  - apply Qltb_lt in E. split; [done|]. lra.
  - split; [|done]. intros _. apply Qnot_lt_le. intros H%Qltb_lt. congruence.
Qed.



Section sorted_facts.
Context {A : Type} (key : A → pyval).

Local Abbreviation k := (num_key key).
Local Abbreviation nums := (Forall (λ x, number (key x))).

Lemma py_lt_number x y :
  number (key x) → number (key y) →
  py_lt (key x) (key y) = Ok (Qltb (k x) (k y)).
Proof.
  unfold num_key. intros Ha Hb.
  by destruct (key x), (key y).
Qed.

(** Inserting above every element appends. *)
Lemma insert_sorted_above x l :
  number (key x) → nums l → (∀ y, y ∈ l → (k y < k x)%Q) →
  insert_sorted key x l = Ok (l ++ [x]).
Proof.
  intros Hx Hl Hlt. induction Hl as [|y ys Hy Hys IH]; [reflexivity|].
  simpl. rewrite (py_lt_number y x) by assumption. simpl.
  replace (Qltb (k y) (k x)) with true
    by (symmetry; apply Qltb_lt, Hlt; left).
  rewrite IH; [reflexivity|]. intros z Hz. apply Hlt. by right.
Qed.

(** Inserting an element that is not above the last one keeps the last
    one in place. *)
Lemma insert_sorted_last x l b :
  number (key x) → nums l → last l = Some b → (k x <= k b)%Q →
  ∃ r, insert_sorted key x l = Ok r ∧ last r = Some b ∧ r ≡ₚ x :: l.
Proof.
  intros Hx Hl. revert b. induction Hl as [|y ys Hy Hys IH]; intros b Hb Hnlt; [done|].
  simpl. rewrite (py_lt_number y x) by assumption. simpl.
  destruct (Qltb (k y) (k x)) eqn:Hyx.
  - apply Qltb_lt in Hyx. destruct ys as [|y' ys'].
    + simpl in Hb. injection Hb as ->. lra.
    + destruct (IH b) as (r & Hr & Hlast & Hperm); [exact Hb | exact Hnlt |].
      rewrite Hr. simpl. exists (y :: r). split; [reflexivity|]. split.
      * destruct r as [|r0 r']; [by apply Permutation_nil_cons in Hperm|exact Hlast].
      * rewrite Hperm. apply perm_swap.
  - exists (x :: y :: ys). split; [reflexivity|]. split; [exact Hb | reflexivity].
Qed.

(** The sort returns, and its last element is the last of the greatest
    elements of the list. *)
Lemma sort_stable_last l :
  nums l → l ≠ [] →
  ∃ s pre b post,
    sort_stable key l = Ok s ∧ s ≡ₚ l ∧ last s = Some b ∧
    l = pre ++ b :: post ∧
    (∀ y, y ∈ pre → (k y <= k b)%Q) ∧ (∀ y, y ∈ post → (k y < k b)%Q).
Proof.
  intros Hl. induction Hl as [|x xs Hx Hxs IH]; [done|]. intros _.
  destruct xs as [|x' xs'].
  { exists [x], [], x, []. simpl. repeat split; try done; intros y Hy; by apply elem_of_nil in Hy. }
  destruct IH as (s & pre & b & post & Hs & Hperm & Hlast & Hsplit & Hpre & Hpost); [done|].
  change (sort_stable key (x :: x' :: xs')) with
    (sort_stable key (x' :: xs') ≫= insert_sorted key x).
  rewrite Hs. simpl.
  assert (Hints : nums s) by (rewrite Hperm; exact Hxs).
  assert (Hmax : ∀ y, y ∈ x' :: xs' → (k y <= k b)%Q).
  { intros y. rewrite Hsplit, elem_of_app, elem_of_cons.
    intros [Hy|[->|Hy]]; [by apply Hpre | lra | apply Hpost in Hy; lra]. }
  destruct (Qlt_le_dec (k b) (k x)) as [Hbx|Hbx].
  - rewrite insert_sorted_above; [|assumption|assumption|].
    2:{ intros y Hy. rewrite Hperm in Hy. apply Hmax in Hy. lra. }
    exists (s ++ [x]), [], x, (x' :: xs'). repeat split.
    + rewrite Hperm. symmetry. apply Permutation_cons_append.
    + apply last_snoc.
    + intros y Hy. by apply elem_of_nil in Hy.
    + intros y Hy. apply Hmax in Hy. lra.
  - destruct (insert_sorted_last x s b) as (r & Hr & Hrlast & Hrperm); try assumption.
    exists r, (x :: pre), b, post. repeat split; try assumption.
    + rewrite Hrperm, Hperm. reflexivity.
    + rewrite Hsplit. reflexivity.
    + intros y. rewrite elem_of_cons. intros [->|Hy]; [lra | by apply Hpre].
Qed.

Lemma list_getitem0_rev (s : list A) b :
  last s = Some b → list_getitem0 (rev s) = Ok b.
Proof.
  destruct s as [|a s'] using rev_ind; [done|].
  rewrite last_snoc. intros [= ->]. rewrite rev_unit. reflexivity.
Qed.

(** [sorted(l, key=key, reverse=True)[0]] is the first of the greatest
    elements of [l]. *)
Lemma py_sorted_reverse_first l :
  nums l → l ≠ [] →
  ∃ s pre b post,
    py_sorted key true l = Ok s ∧ s ≡ₚ l ∧ list_getitem0 s = Ok b ∧
    l = pre ++ b :: post ∧
    (∀ y, y ∈ pre → (k y < k b)%Q) ∧ (∀ y, y ∈ post → (k y <= k b)%Q).
Proof.
  intros Hl Hne.
  destruct (sort_stable_last (rev l)) as (s & pre & b & post & Hs & Hperm & Hlast & Hsplit & Hpre & Hpost).
  { rewrite Forall_forall in Hl. apply Forall_forall. intros x Hx.
    apply Hl. by apply elem_of_rev. }
  { intros Hnil. apply Hne. rewrite <- (rev_involutive l), Hnil. reflexivity. }
  exists (rev s), (rev post), b, (rev pre). unfold py_sorted. rewrite Hs. simpl.
  repeat split.
  - by rewrite <- Permutation_rev, Hperm, <- Permutation_rev.
  - by apply list_getitem0_rev.
  - rewrite <- (rev_involutive l), Hsplit, rev_app_distr. simpl.
    rewrite <- app_assoc. reflexivity.
  - intros y Hy. apply Hpost. by apply (elem_of_rev post y).
  - intros y Hy. apply Hpre. by apply (elem_of_rev pre y).
Qed.

End sorted_facts.

(** ** The audio-only filter *)

Lemma py_eq_str v s : py_eq v (VStr s) = true ↔ v = VStr s.
Proof.
  destruct v as [|z|x|t]; simpl; try (split; discriminate).
  rewrite String.eqb_eq. split; congruence.
Qed.

Lemma py_eq_str_false v s : py_eq v (VStr s) = false ↔ v ≠ VStr s.
Proof. rewrite <- py_eq_str. by destruct (py_eq v (VStr s)). Qed.

Lemma is_audio_format_kept f : is_audio_format f = true ↔ kept_by_filter f.
Proof.
  unfold is_audio_format, kept_by_filter, dict_get.
  rewrite andb_true_iff, negb_true_iff, py_eq_str_false, py_eq_str.
  destruct (f !! "acodec") as [a|], (f !! "vcodec") as [v|]; simpl;
    (split; intros [H1 H2]; split; congruence).
Qed.

Lemma audio_formats_filter (fs : list pydict) :
  audio_formats fs = filter kept_by_filter fs.
Proof.
  unfold audio_formats. induction fs as [|f fs IH]; [reflexivity|].
  simpl. rewrite filter_cons, IH.
  destruct (is_audio_format f) eqn:Hf.
  - apply is_audio_format_kept in Hf. by rewrite decide_True.
  - rewrite decide_False; [done|]. rewrite <- is_audio_format_kept. congruence.
Qed.

Lemma audio_formats_none (fs : list pydict) :
  Forall (λ f, ¬ kept_by_filter f) fs → audio_formats fs = [].
Proof.
  rewrite audio_formats_filter.
  induction 1 as [|f fs' Hf _ IH]; [reflexivity|].
  rewrite filter_cons, decide_False by exact Hf. exact IH.
Qed.

(** C1, as the code has it: the filter keeps, in their order, exactly the
    formats whose audio codec is not the string "none" (a missing audio
    codec passes) and whose video codec field is present and is "none"; a
    format without a video codec field is never kept, and one without an
    audio codec field is kept as soon as its video codec is "none". *)
Theorem audio_formats_kept (fs : list pydict) :
  audio_formats fs = filter kept_by_filter fs ∧
  (∀ f, f ∈ fs → f !! "vcodec" = None → f ∉ audio_formats fs) ∧
  (∀ f, f ∈ fs → f !! "acodec" = None → f !! "vcodec" = Some (VStr "none") →
        f ∈ audio_formats fs).
Proof.
  pose proof (audio_formats_filter fs) as Heq.
  split; [exact Heq|]. rewrite Heq. split.
  - intros f _ Hv [[_ Hk] _]%list_elem_of_filter. congruence.
  - intros f Hin Ha Hv. apply list_elem_of_filter. split; [|exact Hin].
    split; congruence.
Qed.

Lemma audio_formats_kept_witness :
  (no_vcodec ∉ audio_formats [no_vcodec; no_acodec]) ∧
  (no_acodec ∈ audio_formats [no_vcodec; no_acodec]).
Proof.
  destruct (audio_formats_kept [no_vcodec; no_acodec]) as (_ & Hv & Ha). split.
  - apply Hv; [left | reflexivity].
  - apply Ha; [right; left | reflexivity | reflexivity].
Defined.

(** C1, as stated, fails: of a format with no video codec field and a
    format with no audio codec field the code keeps the second, the
    claimed filter the first. *)
Lemma audio_formats_not_as_specified :
  audio_formats [no_vcodec; no_acodec] = [no_acodec] ∧
  List.filter audio_only_as_specified [no_vcodec; no_acodec] = [no_vcodec] ∧
  audio_formats [no_vcodec; no_acodec]
    ≠ List.filter audio_only_as_specified [no_vcodec; no_acodec].
Proof. vm_compute. repeat split. discriminate. Qed.

(** ** The choice of the best format *)

Lemma quality_number f : numeric_quality f → number (quality f).
Proof.
  unfold numeric_quality, quality, dict_get_or.
  by destruct (f !! "quality").
Qed.

Lemma quality_value f : value_of (quality f) = quality_field f.
Proof.
  unfold quality_field, quality, dict_get_or.
  by destruct (f !! "quality").
Qed.

(** C2: when the filtered list is not empty (the 'quality' fields
    numbers, integers or floats, and every format with its url), lines
    168 and 169 return the url of a format whose 'quality' field, 0 when
    the field is missing, is the greatest in the filtered list, and of
    the first such format: every format before it in the filtered list
    has a strictly smaller one. *)
Theorem select_stream_url_first_best (formats : list pydict) :
  audio_formats formats ≠ [] →
  Forall numeric_quality (audio_formats formats) →
  Forall (λ f, is_Some (f !! "url")) (audio_formats formats) →
  ∃ pre best post stream_url,
    audio_formats formats = pre ++ best :: post ∧
    best !! "url" = Some stream_url ∧
    select_stream_url (audio_formats formats) = Ok stream_url ∧
    (∀ f, f ∈ audio_formats formats →
          (quality_field f <= quality_field best)%Q) ∧
    (∀ f, f ∈ pre → (quality_field f < quality_field best)%Q).
Proof.
  intros Hne Hnum Hurl.
  destruct (py_sorted_reverse_first quality (audio_formats formats))
    as (s & pre & best & post & Hs & _ & Hhead & Hsplit & Hpre & Hpost);
    [by eapply Forall_impl; [exact Hnum | apply quality_number] | done |].
  assert (Hin : best ∈ audio_formats formats).
  { rewrite Hsplit. apply elem_of_app. right. left. }
  rewrite Forall_forall in Hurl. destruct (Hurl best Hin) as [u Hu].
  unfold num_key in Hpre, Hpost. setoid_rewrite quality_value in Hpre.
  setoid_rewrite quality_value in Hpost.
  exists pre, best, post, u. repeat split; try assumption.
  - unfold select_stream_url. rewrite Hs. simpl. rewrite Hhead. simpl.
    unfold dict_getitem. by rewrite Hu.
  - intros f. rewrite Hsplit, elem_of_app, elem_of_cons.
    intros [Hf|[->|Hf]]; [apply Hpre in Hf | | apply Hpost in Hf]; lra.
Qed.

Lemma select_stream_url_first_best_witness :
  ∃ pre best post,
    audio_formats float_formats = pre ++ best :: post ∧
    best !! "url" = Some (VStr "first") ∧
    select_stream_url (audio_formats float_formats) = Ok (VStr "first") ∧
    (∀ f, f ∈ audio_formats float_formats →
          (quality_field f <= quality_field best)%Q) ∧
    (∀ f, f ∈ pre → (quality_field f < quality_field best)%Q).
Proof.
  destruct (select_stream_url_first_best float_formats)
    as (pre & best & post & u & Hsplit & Hu & Hsel & Hmax & Hpre).
  - vm_compute. discriminate.
  - vm_compute. repeat constructor.
  - vm_compute. repeat constructor; eexists; reflexivity.
  - assert (Hfirst : u = VStr "first") by (vm_compute in Hsel; congruence).
    subst u. by exists pre, best, post.
Defined.

(** The integer 3 comes before the float 3.0 and wins the tie; 2.5 and
    the format without the field (0) are below. *)
Example select_stream_url_floats :
  select_stream_url (audio_formats float_formats) = Ok (VStr "first") ∧
  (quality_field <$> audio_formats float_formats) = [5 # 2; 3; 3; 0]%Q.
Proof. vm_compute. done. Qed.

Example select_stream_url_tie :
  select_stream_url (audio_formats some_formats) = Ok (VStr "first").
Proof. vm_compute. reflexivity. Qed.

(** ** The cache in front of the provider *)

Section stream_facts.
Variable ydl : provider.

Lemma cache_lookup_run key w :
  cache_lookup key w = (Ok (fresh_entry key w), w).
Proof.
  unfold cache_lookup, fresh_entry, mbind, M_bind, read_cache, datetime_now, mret, M_ret.
  destruct (song_cache w !! key) as [[d ts]|]; [|reflexivity].
  by case_bool_decide.
Qed.

Lemma resolve_stream_run video_id key w :
  resolve_stream ydl video_id key w =
    let o := (ydl STREAM_OPTS (watch_url video_id) (wall_clock w)).1 in
    let w1 := called STREAM_OPTS (watch_url video_id)
                (ydl STREAM_OPTS (watch_url video_id) (wall_clock w)).2 w in
    match resolved o with
    | Ok stream_url =>
        (Ok stream_url,
         with_cache (<[key := (stream_url, wall_clock w1)]> (song_cache w)) w1)
    | Raise _ => (Raise (HTTPException 404), w1)
    end.
Proof.
  unfold resolve_stream, try_except, extract_info, mbind, M_bind, lift, watch_url, resolved.
  destruct (ydl STREAM_OPTS _ (wall_clock w)) as [[|i] dt]; simpl; [reflexivity|].
  destruct (info_formats i) as [fs|e]; simpl; [|reflexivity].
  destruct (select_stream_url (audio_formats fs)) as [u|e]; reflexivity.
Qed.

Lemma fetch_stream_url_run video_id w :
  fetch_stream_url ydl video_id w =
    match fresh_entry (stream_key video_id) w with
    | Some cached_data => (Ok cached_data, w)
    | None => resolve_stream ydl video_id (stream_key video_id) w
    end.
Proof.
  unfold fetch_stream_url, mbind, M_bind. fold (stream_key video_id).
  rewrite cache_lookup_run. by destruct (fresh_entry _ w).
Qed.

Lemma get_stream_url_run video_id w :
  get_stream_url ydl video_id w = fetch_stream_url ydl video_id w.
Proof.
  unfold get_stream_url, try_except, raise.
  by destruct (fetch_stream_url ydl video_id w) as [[u|e] w'].
Qed.

Lemma fresh_entry_expired key w cached_data T :
  song_cache w !! key = Some (cached_data, T) →
  T + CACHE_TIMEOUT ≤ wall_clock w →
  fresh_entry key w = None.
Proof.
  intros Hc Ht. unfold fresh_entry. rewrite Hc.
  rewrite bool_decide_eq_false_2; [reflexivity | lia].
Qed.

(** C3: an entry stored at time [T] is no hit at any time from [T] plus
    30 minutes on, although it is still in the map: the check of lines
    158 to 161 finds nothing, the provider is asked again, and the
    outcome is the one the same call has with the entry deleted. *)
Theorem expired_entry_is_absent video_id w cached_data T :
  song_cache w !! stream_key video_id = Some (cached_data, T) →
  T + CACHE_TIMEOUT ≤ wall_clock w →
  CACHE_TIMEOUT = 1800000000 ∧
  cache_lookup (stream_key video_id) w = (Ok None, w) ∧
  fetch_stream_url ydl video_id w
    = resolve_stream ydl video_id (stream_key video_id) w ∧
  (fetch_stream_url ydl video_id w).1
    = (fetch_stream_url ydl video_id
         (with_cache (delete (stream_key video_id) (song_cache w)) w)).1 ∧
  provider_calls (fetch_stream_url ydl video_id w).2
    = provider_calls w ++ [(STREAM_OPTS, watch_url video_id)].
Proof.
  intros Hc Ht. pose proof (fresh_entry_expired _ _ _ _ Hc Ht) as Hfresh.
  split; [reflexivity|].
  split; [by rewrite cache_lookup_run, Hfresh|].
  rewrite !fetch_stream_url_run, Hfresh.
  split; [reflexivity|].
  assert (Hdel : fresh_entry (stream_key video_id)
            (with_cache (delete (stream_key video_id) (song_cache w)) w) = None).
  { unfold fresh_entry. simpl. by rewrite lookup_delete_eq. }
  rewrite Hdel, !resolve_stream_run. simpl.
  by destruct (resolved _).
Qed.

(** C4: whatever makes the resolution fail (the provider raises, gives
    no format list, or none of its formats passes the filter), the cache
    after the call is the cache before it, and the failure is a 404. *)
Theorem failed_resolve_keeps_cache video_id w e w' :
  fetch_stream_url ydl video_id w = (Raise e, w') →
  song_cache w' = song_cache w ∧ e = HTTPException 404.
Proof.
  rewrite fetch_stream_url_run.
  destruct (fresh_entry _ w); [discriminate|].
  rewrite resolve_stream_run. simpl.
  destruct (resolved _); [discriminate|].
  by intros [= <- <-].
Qed.

(** A successful call leaves the url in the cache: it was a hit, or the
    url has just been stored with the time of the store. *)
Lemma fetch_stream_url_cached video_id w stream_url w1 :
  fetch_stream_url ydl video_id w = (Ok stream_url, w1) →
  ∃ timestamp,
    song_cache w1 !! stream_key video_id = Some (stream_url, timestamp) ∧
    (fresh_entry (stream_key video_id) w = None → timestamp = wall_clock w1).
Proof.
  rewrite fetch_stream_url_run. unfold fresh_entry at 1.
  destruct (song_cache w !! stream_key video_id) as [[d ts]|] eqn:Hc.
  - case_bool_decide as Hfresh.
    + intros [= <- <-]. exists ts. split; [exact Hc|].
      unfold fresh_entry. rewrite Hc. by rewrite bool_decide_eq_true_2.
    + rewrite resolve_stream_run. simpl. destruct (resolved _); [|discriminate].
      intros [= <- <-]. eexists. split; [apply lookup_insert_eq|done].
  - rewrite resolve_stream_run. simpl. destruct (resolved _); [|discriminate].
    intros [= <- <-]. eexists. split; [apply lookup_insert_eq|done].
Qed.

(** C5: after a successful resolve the url sits in the cache with a
    timestamp (the time of the store when the provider was asked); a
    second resolve of the same id, in any later world that still has this
    entry and whose clock is less than 30 minutes past the timestamp,
    returns the same url and leaves the world as it is: no call to the
    provider is added. *)
Theorem second_resolve_is_cached video_id w stream_url w1 :
  fetch_stream_url ydl video_id w = (Ok stream_url, w1) →
  ∃ timestamp,
    song_cache w1 !! stream_key video_id = Some (stream_url, timestamp) ∧
    (fresh_entry (stream_key video_id) w = None → timestamp = wall_clock w1) ∧
    ∀ w2,
      song_cache w2 !! stream_key video_id = Some (stream_url, timestamp) →
      wall_clock w2 - timestamp < CACHE_TIMEOUT →
      fetch_stream_url ydl video_id w2 = (Ok stream_url, w2) ∧
      provider_calls (fetch_stream_url ydl video_id w2).2 = provider_calls w2.
Proof.
  intros Hfirst.
  destruct (fetch_stream_url_cached _ _ _ _ Hfirst) as (ts & Hc & Hts).
  exists ts. split; [exact Hc|]. split; [exact Hts|].
  intros w2 Hc2 Hwin.
  assert (Hrun : fetch_stream_url ydl video_id w2 = (Ok stream_url, w2)).
  { rewrite fetch_stream_url_run. unfold fresh_entry. rewrite Hc2.
    by rewrite bool_decide_eq_true_2. }
  by rewrite Hrun.
Qed.

(** C7: on a cache miss, when the provider returns a format list none of
    whose formats passes the filter of line 167 (only video formats, for
    one), the resolution returns no url: it raises the 404, which the
    handler passes on, and the cache is left alone. *)
Theorem no_audio_format_is_not_found video_id w i fs :
  fresh_entry (stream_key video_id) w = None →
  (ydl STREAM_OPTS (watch_url video_id) (wall_clock w)).1 = Returns i →
  info_formats i = Ok fs →
  Forall (λ f, ¬ kept_by_filter f) fs →
  ∃ w',
    fetch_stream_url ydl video_id w = (Raise (HTTPException 404), w') ∧
    get_stream_url ydl video_id w = (Raise (HTTPException 404), w') ∧
    song_cache w' = song_cache w.
Proof.
  intros Hmiss Hret Hfs Hnone.
  pose proof (audio_formats_none _ Hnone) as Hempty.
  eexists. rewrite get_stream_url_run, fetch_stream_url_run, Hmiss, resolve_stream_run.
  simpl. unfold resolved. rewrite Hret, Hfs. simpl. rewrite Hempty. simpl.
  repeat split; reflexivity.
Qed.

(** A format that carries a video codec does not pass the filter. *)
Lemma video_format_not_kept (f : pydict) vcodec :
  f !! "vcodec" = Some (VStr vcodec) → vcodec ≠ "none" → ¬ kept_by_filter f.
Proof. intros Hv Hne [_ Hk]. congruence. Qed.
End stream_facts.

Lemma expired_entry_is_absent_witness :
  CACHE_TIMEOUT = 1800000000 ∧
  cache_lookup (stream_key "abc") stale_world = (Ok None, stale_world) ∧
  fetch_stream_url sample_ydl "abc" stale_world
    = resolve_stream sample_ydl "abc" (stream_key "abc") stale_world ∧
  (fetch_stream_url sample_ydl "abc" stale_world).1
    = (fetch_stream_url sample_ydl "abc"
         (with_cache (delete (stream_key "abc") (song_cache stale_world))
                     stale_world)).1 ∧
  provider_calls (fetch_stream_url sample_ydl "abc" stale_world).2
    = provider_calls stale_world ++ [(STREAM_OPTS, watch_url "abc")].
Proof.
  apply (expired_entry_is_absent sample_ydl "abc" stale_world (VStr "old") 0).
  - reflexivity.
  - vm_compute. discriminate.
Defined.

Example expired_entry_refetched :
  (fetch_stream_url sample_ydl "abc" stale_world).1 = Ok (VStr "first").
Proof. vm_compute. reflexivity. Qed.

Lemma failed_resolve_keeps_cache_witness :
  song_cache (called STREAM_OPTS (watch_url "zzz") 1000000 stale_world)
    = song_cache stale_world ∧
  HTTPException 404 = HTTPException 404.
Proof.
  apply (failed_resolve_keeps_cache sample_ydl "zzz" stale_world).
  vm_compute. reflexivity.
Defined.

Lemma second_resolve_is_cached_witness :
  ∃ timestamp,
    song_cache (fetch_stream_url sample_ydl "abc" empty_world).2
      !! stream_key "abc" = Some (VStr "first", timestamp) ∧
    (fresh_entry (stream_key "abc") empty_world = None →
     timestamp = wall_clock (fetch_stream_url sample_ydl "abc" empty_world).2) ∧
    ∀ w2,
      song_cache w2 !! stream_key "abc" = Some (VStr "first", timestamp) →
      wall_clock w2 - timestamp < CACHE_TIMEOUT →
      fetch_stream_url sample_ydl "abc" w2 = (Ok (VStr "first"), w2) ∧
      provider_calls (fetch_stream_url sample_ydl "abc" w2).2 = provider_calls w2.
Proof.
  apply (second_resolve_is_cached sample_ydl "abc" empty_world).
  vm_compute. reflexivity.
Defined.

Lemma no_audio_format_is_not_found_witness :
  ∃ w',
    fetch_stream_url sample_ydl "clip" empty_world = (Raise (HTTPException 404), w') ∧
    get_stream_url sample_ydl "clip" empty_world = (Raise (HTTPException 404), w') ∧
    song_cache w' = song_cache empty_world.
Proof.
  apply (no_audio_format_is_not_found sample_ydl "clip" empty_world
           (Some (sample_info [fmt "mp4a" "avc1" 9 "video"]))
           [fmt "mp4a" "avc1" 9 "video"]).
  - reflexivity.
  - reflexivity.
  - reflexivity.
  - repeat constructor. apply (video_format_not_kept _ "avc1"); [reflexivity | discriminate].
Defined.

(** ** Normalisation of the entries *)

Lemma kept_entries_cons entry es :
  kept_entries (entry :: es) =
    match kept_entry entry with
    | Some e => e :: kept_entries es
    | None => kept_entries es
    end.
Proof. reflexivity. Qed.

Lemma validate_str_py_str pyd v s : validate_str pyd v = Ok s → s = py_str v.
Proof. destruct v, pyd; simpl; congruence. Qed.

Lemma song_of_entry_skip pyd entry :
  kept_entry entry = None → song_of_entry pyd entry = Ok None.
Proof.
  unfold kept_entry, song_of_entry, entry_id. destruct entry as [e|]; [|reflexivity].
  simpl. case_bool_decide; simpl; [reflexivity|].
  by destruct (truthy _).
Qed.

Lemma song_of_entry_kept pyd entry e :
  kept_entry entry = Some e → entry = Some e ∧
  song_of_entry pyd entry =
    song ← new_Song pyd
      (dict_get_or e "title" (VStr ""))
      (VStr (watch_url (py_str (entry_id e))))
      (py_or (dict_get_or e "thumbnail" (VStr ""))
             (VStr ("https://i.ytimg.com/vi/" +:+ py_str (entry_id e)
                    +:+ "/default.jpg")))
      (VStr (py_str (dict_get_or e "duration" (VStr "0"))))
      (entry_id e);
    Ok (Some song).
Proof.
  unfold kept_entry, song_of_entry, entry_id. destruct entry as [e'|]; [|done].
  simpl. case_bool_decide; simpl; [done|].
  destruct (truthy _) eqn:Hid; [|done]. by intros [= ->].
Qed.

(** What a song built from a kept entry holds. *)
Lemma song_of_entry_fields pyd e s :
  kept_entry (Some e) = Some e →
  song_of_entry pyd (Some e) = Ok (Some s) →
  url s = watch_url (py_str (entry_id e)) ∧
  video_id s = py_str (entry_id e) ∧
  duration s = duration_of e.
Proof.
  intros Hk. destruct (song_of_entry_kept pyd _ _ Hk) as [_ ->].
  unfold new_Song. simpl.
  destruct (validate_str pyd (dict_get_or e "title" _)); simpl; [|discriminate].
  destruct (validate_str pyd (py_or _ _)); simpl; [|discriminate].
  destruct (validate_str pyd (entry_id e)) as [v|] eqn:Hv; simpl; [|discriminate].
  intros [= <-]. simpl. apply validate_str_py_str in Hv.
  repeat split; [done|].
  unfold duration_of, dict_get_or. by destruct (e !! "duration").
Qed.

Lemma song_of_entry_typed pyd e :
  kept_entry (Some e) = Some e → typed_entry e →
  ∃ s, song_of_entry pyd (Some e) = Ok (Some s).
Proof.
  intros Hk (Hid & Htitle & Hthumb).
  destruct (song_of_entry_kept pyd _ _ Hk) as [_ ->]. unfold new_Song.
  destruct (dict_get_or e "title" _); try done. simpl.
  assert (Hth : ∃ t, validate_str pyd (py_or (dict_get_or e "thumbnail" (VStr ""))
             (VStr ("https://i.ytimg.com/vi/" +:+ py_str (entry_id e) +:+ "/default.jpg"))) = Ok t).
  { revert Hthumb. unfold py_or. destruct (truthy _); [|by eexists].
    destruct (dict_get_or e "thumbnail" _); try done. by eexists. }
  destruct Hth as [t ->]. simpl.
  destruct (entry_id e); try done. simpl. by eexists.
Qed.

Lemma kept_entry_idem entry e : kept_entry entry = Some e → kept_entry (Some e) = Some e.
Proof.
  destruct entry as [e'|]; [|done]. simpl.
  destruct (negb _ && _) eqn:H; [|done]. intros [= ->]. simpl. by rewrite H.
Qed.

(** The loop appends, in their order, the songs of the kept entries. *)
Lemma collect_songs_kept pyd es acc songs :
  collect_songs pyd es acc = Ok songs →
  ∃ ss, songs = acc ++ ss ∧
        Forall2 (λ e s, song_of_entry pyd (Some e) = Ok (Some s))
                (kept_entries es) ss.
Proof.
  revert acc. induction es as [|entry es IH]; intros acc.
  - intros [= <-]. exists []. by rewrite app_nil_r.
  - rewrite kept_entries_cons. cbn [collect_songs].
    destruct (kept_entry entry) as [e|] eqn:Hk.
    + destruct (song_of_entry_kept pyd _ _ Hk) as [-> Hrun].
      destruct (song_of_entry pyd (Some e)) as [[s|]|] eqn:Hs; cbn [mbind result_bind].
      * intros (ss & -> & Hss)%IH. exists (s :: ss).
        rewrite <- app_assoc. split; [done|]. by constructor.
      * rewrite Hrun in Hs. destruct (new_Song _ _ _ _ _ _); discriminate.
      * discriminate.
    + rewrite (song_of_entry_skip _ _ Hk). cbn [mbind result_bind].
      intros (ss & -> & Hss)%IH. by exists ss.
Qed.

(** On typed entries the loop does not raise. *)
Lemma collect_songs_typed pyd es acc :
  Forall typed_entry (kept_entries es) →
  ∃ songs, collect_songs pyd es acc = Ok songs.
Proof.
  revert acc. induction es as [|entry es IH]; intros acc; [by eexists|].
  rewrite kept_entries_cons. cbn [collect_songs].
  destruct (kept_entry entry) as [e|] eqn:Hk.
  - intros [Ht Hes]%Forall_cons. destruct (song_of_entry_kept pyd _ _ Hk) as [-> _].
    destruct (song_of_entry_typed pyd e Hk Ht) as [s ->].
    cbn [mbind result_bind]. by apply IH.
  - intros Hes. rewrite (song_of_entry_skip _ _ Hk). cbn [mbind result_bind]. by apply IH.
Qed.

Lemma elem_of_kept_entries es e :
  e ∈ kept_entries es ↔
  Some e ∈ es ∧ e ≠ ∅ ∧ truthy (entry_id e) = true.
Proof.
  unfold kept_entries. rewrite list_elem_of_omap. split.
  - intros ([e'|] & Hin & Hk); [|done]. simpl in Hk.
    case_bool_decide; simpl in Hk; [done|].
    destruct (truthy (entry_id e')) eqn:Hid; [|done]. by injection Hk as ->.
  - intros (Hin & Hne & Hid). exists (Some e). split; [done|]. simpl.
    by rewrite bool_decide_eq_false_2, Hid.
Qed.

Lemma kept_entries_kept es :
  Forall (λ e, kept_entry (Some e) = Some e) (kept_entries es).
Proof.
  induction es as [|entry es IH]; [constructor|].
  rewrite kept_entries_cons. destruct (kept_entry entry) eqn:Hk; [|done].
  constructor; [|done]. by eapply kept_entry_idem.
Qed.

(** A relation that holds of every kept entry and its song holds along
    the two lists. *)
Lemma Forall2_songs pyd (R : pydict → Song → Prop) es ss :
  (∀ e s, kept_entry (Some e) = Some e →
          song_of_entry pyd (Some e) = Ok (Some s) → R e s) →
  Forall2 (λ e s, song_of_entry pyd (Some e) = Ok (Some s)) (kept_entries es) ss →
  Forall2 R (kept_entries es) ss.
Proof.
  intros HR Hss. pose proof (kept_entries_kept es) as Hk.
  induction Hss as [|e s l ss' Hes _ IH]; [constructor|].
  apply Forall_cons in Hk as [He Hl]. constructor; auto.
Qed.

Lemma Forall2_impl_Forall {A B} (P : A → Prop) (R Q : A → B → Prop) l k :
  Forall P l → Forall2 R l k → (∀ x y, P x → R x y → Q x y) → Forall2 Q l k.
Proof.
  intros HP HR HQ. induction HR as [|x y l k Hxy _ IH]; [constructor|].
  apply Forall_cons in HP as [Hx Hl]. constructor; auto.
Qed.

(** ** Search *)

Section search_facts.
Variable ydl : provider.
Variable pyd : pydantic.

Lemma search_songs_run query w :
  search_songs ydl pyd query w =
    (searched pyd (ydl YDL_OPTS (search_url query) (wall_clock w)).1,
     called YDL_OPTS (search_url query)
            (ydl YDL_OPTS (search_url query) (wall_clock w)).2 w).
Proof.
  unfold search_songs, try_except, extract_info, mbind, M_bind, search_url, searched.
  destruct (ydl YDL_OPTS _ (wall_clock w)) as [[|[r|]] dt]; simpl; try reflexivity.
  destruct (info_falsy r || negb (has_entries r)); [reflexivity|].
  unfold lift, mbind. by destruct (result_bind _ _ _ _).
Qed.

Lemma searched_entries r es :
  entries r = Some es →
  searched pyd (Returns (Some r)) =
    match collect_songs pyd es [] with
    | Ok songs => Ok songs
    | Raise _ => Raise (HTTPException 500)
    end.
Proof.
  intros He. unfold searched, info_falsy, has_entries, iter_entries. rewrite He.
  rewrite (bool_decide_eq_false_2 (Some es = None)) by done.
  rewrite andb_false_r, andb_false_l.
  by rewrite (bool_decide_eq_true_2 (is_Some (Some es))).
Qed.

(** C8: when the provider answers the search with a list of entries,
    the songs returned are those of the kept entries, one for one and in
    order, where an entry is kept exactly when it is not [None], not
    empty and has a non-empty id; the url of each song is the watch
    prefix followed by the id of its entry; and on typed entries the
    search does return, with as many songs as there are kept entries. *)
Theorem search_songs_tracks query w r es :
  (ydl YDL_OPTS (search_url query) (wall_clock w)).1 = Returns (Some r) →
  entries r = Some es →
  (∀ e, e ∈ kept_entries es ↔
        Some e ∈ es ∧ e ≠ ∅ ∧ truthy (dict_get_or e "id" (VStr "")) = true) ∧
  (∀ songs w', search_songs ydl pyd query w = (Ok songs, w') →
     Forall2 (λ e s, url s = "https://music.youtube.com/watch?v="
                               +:+ py_str (dict_get_or e "id" (VStr "")))
             (kept_entries es) songs) ∧
  (Forall typed_entry (kept_entries es) →
     ∃ songs w', search_songs ydl pyd query w = (Ok songs, w') ∧
       length songs = length (kept_entries es) ∧
       Forall2 (λ e s, ∃ id, e !! "id" = Some (VStr id) ∧
                  url s = "https://music.youtube.com/watch?v=" +:+ id)
               (kept_entries es) songs).
Proof.
  intros Hret He. split; [apply elem_of_kept_entries|].
  assert (Hurl : ∀ songs w', search_songs ydl pyd query w = (Ok songs, w') →
     Forall2 (λ e s, url s = "https://music.youtube.com/watch?v="
                               +:+ py_str (dict_get_or e "id" (VStr "")))
             (kept_entries es) songs).
  { intros songs w'. rewrite search_songs_run, Hret, (searched_entries _ _ He).
    destruct (collect_songs pyd es []) as [ss|] eqn:Hc; [|discriminate].
    intros [= <- _]. apply collect_songs_kept in Hc as (ss' & -> & Hss). simpl.
    eapply Forall2_songs; [|exact Hss].
    intros e s Hk Hs. by destruct (song_of_entry_fields _ _ _ Hk Hs) as (? & _). }
  split; [exact Hurl|].
  intros Htyped. destruct (collect_songs_typed pyd es [] Htyped) as [songs Hc].
  exists songs, (called YDL_OPTS (search_url query)
            (ydl YDL_OPTS (search_url query) (wall_clock w)).2 w).
  assert (Hrun : search_songs ydl pyd query w = (Ok songs, called YDL_OPTS (search_url query)
            (ydl YDL_OPTS (search_url query) (wall_clock w)).2 w)).
  { by rewrite search_songs_run, Hret, (searched_entries _ _ He), Hc. }
  split; [exact Hrun|]. pose proof (Hurl _ _ Hrun) as HF.
  split; [symmetry; by eapply Forall2_length|].
  assert (Hboth : Forall (λ e, typed_entry e ∧ kept_entry (Some e) = Some e)
                         (kept_entries es)).
  { apply Forall_and. split; [exact Htyped | apply kept_entries_kept]. }
  eapply Forall2_impl_Forall; [exact Hboth | exact HF |].
  simpl. intros e s [(Hid & _) Hk] Hu. revert Hid Hk Hu.
  unfold kept_entry, entry_id, dict_get_or.
  destruct (e !! "id") as [[| | |id]|]; simpl; try done.
  - intros _ _ Hu. by exists id.
  - rewrite andb_false_r. done.
Qed.
End search_facts.

Lemma search_songs_tracks_witness :
  ∃ songs w',
    search_songs sample_ydl PydanticV2 "bernadya" empty_world = (Ok songs, w') ∧
    length songs = 2%nat ∧
    Forall2 (λ e s, ∃ id, e !! "id" = Some (VStr id) ∧
               url s = "https://music.youtube.com/watch?v=" +:+ id)
            (kept_entries sample_entries) songs.
Proof.
  apply (search_songs_tracks sample_ydl PydanticV2 "bernadya" empty_world
           (sample_listing (search_url "bernadya")) sample_entries).
  - reflexivity.
  - reflexivity.
  - vm_compute. repeat constructor.
Defined.

(** ** Aggregation *)

Section aggregate_facts.
Variable ydl : provider.
Variable pyd : pydantic.

Lemma listed_calls urls w :
  provider_calls (listed ydl urls w) = provider_calls w ++ map (pair YDL_OPTS) urls.
Proof.
  revert w. induction urls as [|u urls IH]; intros w; simpl.
  - by rewrite app_nil_r.
  - rewrite IH. simpl. by rewrite <- app_assoc.
Qed.


(** One turn of the loop on a standard output that takes every line:
    the artist's batch is appended when there is one, and nothing is
    raised. *)
Lemma artist_turn stdout u responses w :
  (∀ l, stdout l = true) →
  try_except (artist_body ydl pyd stdout u responses)
             (fun artist_error =>
                _ ← print stdout (ErrorFetching u artist_error); mret responses) w =
    (Ok (responses ++ option_list (batch pyd (u, (ydl YDL_OPTS u (wall_clock w)).1))),
     called YDL_OPTS u (ydl YDL_OPTS u (wall_clock w)).2 w).
Proof.
  intros Hq.
  unfold try_except, artist_body, extract_info, print, mbind, M_bind, batch, called, channel_of.
  rewrite Hq.
  destruct (ydl YDL_OPTS u (wall_clock w)) as [[msg|[r|]] dt]; simpl; rewrite ?Hq; simpl;
    try (by rewrite app_nil_r).
  destruct (info_falsy r); simpl; rewrite ?Hq; simpl; [by rewrite app_nil_r|].
  unfold lift, mbind. destruct (artist_songs pyd r) as [songs|]; simpl; rewrite ?Hq; simpl;
    [|by rewrite app_nil_r].
  destruct (new_SongResponse pyd _ _ songs); simpl; rewrite ?Hq; simpl;
    [done|by rewrite app_nil_r].
Qed.

Lemma artist_loop_run stdout urls responses w :
  (∀ l, stdout l = true) →
  artist_loop ydl pyd stdout urls responses w =
    (Ok (responses ++ omap (batch pyd) (zip urls (outcomes ydl urls w))),
     listed ydl urls w).
Proof.
  intros Hq. revert responses w. induction urls as [|u urls IH]; intros responses w.
  - simpl. by rewrite app_nil_r.
  - cbn [artist_loop outcomes listed zip_with]. unfold mbind at 1, M_bind at 1.
    rewrite (artist_turn stdout u responses w Hq), IH, <- app_assoc. f_equal. f_equal. f_equal.
    change (omap (batch pyd) ((u, ?o) :: ?l))
      with (match batch pyd (u, o) with
            | Some b => b :: omap (batch pyd) l
            | None => omap (batch pyd) l
            end).
    by destruct (batch pyd _).
Qed.

Lemma collect_artists_run stdout urls w :
  (∀ l, stdout l = true) →
  collect_artists ydl pyd stdout urls w =
    (Ok (omap (batch pyd) (zip urls (outcomes ydl urls w))), listed ydl urls w).
Proof. intros Hq. unfold collect_artists, try_except. by rewrite artist_loop_run. Qed.

Lemma get_artist_songs_from_run stdout urls w :
  (∀ l, stdout l = true) →
  get_artist_songs_from ydl pyd stdout urls w =
    match omap (batch pyd) (zip urls (outcomes ydl urls w)) with
    | [] => (Raise (HTTPException 404), listed ydl urls w)
    | responses => (Ok responses, listed ydl urls w)
    end.
Proof.
  intros Hq. unfold get_artist_songs_from, mbind, M_bind.
  rewrite collect_artists_run by done. by destruct (omap _ _).
Qed.

Lemma aggregate_run urls w :
  aggregate ydl pyd urls w =
    (Ok (omap (batch pyd) (zip urls (outcomes ydl urls w))), listed ydl urls w).
Proof. by apply collect_artists_run. Qed.

Lemma get_artist_songs_of_run urls w :
  get_artist_songs_of ydl pyd urls w =
    match omap (batch pyd) (zip urls (outcomes ydl urls w)) with
    | [] => (Raise (HTTPException 404), listed ydl urls w)
    | responses => (Ok responses, listed ydl urls w)
    end.
Proof. by apply get_artist_songs_from_run. Qed.

(** What a batch holds: the locator, and the songs of the kept entries
    of its result, one for one and in order. *)
Lemma batch_Some u o b :
  batch pyd (u, o) = Some b →
  ∃ r, o = Returns (Some r) ∧ info_falsy r = false ∧ artist_url b = u ∧
       Forall2 (λ e s, song_of_entry pyd (Some e) = Ok (Some s))
               (kept_entries (listed_entries r)) (songs b).
Proof.
  unfold batch. simpl. destruct o as [|[r|]]; try done.
  destruct (info_falsy r) eqn:Hf; [done|].
  destruct (artist_songs pyd r) as [ss|] eqn:Hss; simpl; [|done].
  unfold new_SongResponse. simpl.
  destruct (validate_str pyd (channel_of r)) as [n|]; simpl; [|done].
  intros [= <-]. exists r. simpl. repeat split; try done.
  revert Hss. unfold artist_songs, listed_entries.
  destruct (has_entries r).
  - destruct (iter_entries r) as [es|]; simpl; [|done].
    intros (ss' & -> & H)%collect_songs_kept. exact H.
  - intros [= <-]. constructor.
Qed.

Lemma omap_delete_None {A B} (f : A → option B) (l : list A) i x :
  l !! i = Some x → f x = None → omap f (delete i l) = omap f l.
Proof.
  revert i. induction l as [|y l IH]; intros [|i]; simpl; try done.
  - intros [= ->] ->. done.
  - intros Hi Hx. specialize (IH i Hi Hx). unfold omap in IH.
    by rewrite IH.
Qed.



(** X17: failure isolation when standard output takes every line.  The
    loop then never raises, whatever the provider does: it asks the
    provider for every locator, in order, and returns the batches of the
    locators that gave one.  A locator whose call raises gives none, so
    the result is the one of the list without it; with three locators of
    which the second raises and the other two give a batch, the loop and
    the handler return exactly these two batches.  The handler raises
    only its 404, and only when there is no batch at all. *)
Theorem printing_console_isolates_failures stdout urls w :
  (∀ l, stdout l = true) →
  let os := outcomes ydl urls w in
  let responses := omap (batch pyd) (zip urls os) in
  collect_artists ydl pyd stdout urls w = (Ok responses, listed ydl urls w) ∧
  provider_calls (listed ydl urls w) = provider_calls w ++ map (pair YDL_OPTS) urls ∧
  (∀ i u msg, urls !! i = Some u → os !! i = Some (Raises msg) →
          responses = omap (batch pyd) (delete i (zip urls os))) ∧
  (∀ u1 u2 u3 o1 msg o3 b1 b3,
     urls = [u1; u2; u3] → os = [o1; Raises msg; o3] →
     batch pyd (u1, o1) = Some b1 → batch pyd (u3, o3) = Some b3 →
     (collect_artists ydl pyd stdout urls w).1 = Ok [b1; b3] ∧
     (get_artist_songs_from ydl pyd stdout urls w).1 = Ok [b1; b3]) ∧
  (get_artist_songs_from ydl pyd stdout urls w).1 =
     match responses with
     | [] => Raise (HTTPException 404)
     | _ => Ok responses
     end.
Proof.
  intros Hq os responses. split; [by apply collect_artists_run|].
  split; [apply listed_calls|]. split; [|split].
  - intros i u msg Hu Ho. symmetry.
    apply (omap_delete_None _ _ i (u, Raises msg)); [|done].
    rewrite lookup_zip_with, Hu. simpl. by rewrite Ho.
  - intros u1 u2 u3 o1 msg o3 b1 b3 Hurls Hos H1 H3.
    rewrite get_artist_songs_from_run, collect_artists_run by done.
    fold os. rewrite Hurls, Hos. simpl. rewrite H1, H3. by split.
  - rewrite get_artist_songs_from_run by done. fold os. fold responses.
    by destruct responses.
Qed.

(** X18: the duration of a track built from an entry is "0" when the
    entry has no duration key, and the [str] of what the key holds
    otherwise, "None" for [None]; so it is for every track the search
    returns and for every track of every batch of the aggregation. *)
Theorem duration_of_tracks :
  (∀ entry s, song_of_entry pyd entry = Ok (Some s) →
     ∃ e, entry = Some e ∧
          (e !! "duration" = None → duration s = "0") ∧
          (∀ v, e !! "duration" = Some v → duration s = py_str v)) ∧
  (∀ query w r es songs w',
     (ydl YDL_OPTS (search_url query) (wall_clock w)).1 = Returns (Some r) →
     entries r = Some es →
     search_songs ydl pyd query w = (Ok songs, w') →
     Forall2 (λ e s, duration s = duration_of e) (kept_entries es) songs) ∧
  (∀ urls w responses w',
     aggregate ydl pyd urls w = (Ok responses, w') →
     Forall (λ b, ∃ u r,
               (u, Returns (Some r)) ∈ zip urls (outcomes ydl urls w) ∧
               artist_url b = u ∧
               Forall2 (λ e s, duration s = duration_of e)
                       (kept_entries (listed_entries r)) (songs b))
            responses).
Proof.
  split; [|split].
  - intros entry s Hs. destruct (kept_entry entry) as [e|] eqn:Hk.
    + destruct (song_of_entry_kept pyd _ _ Hk) as [-> _]. exists e. split; [done|].
      destruct (song_of_entry_fields pyd _ _ Hk Hs) as (_ & _ & ->).
      unfold duration_of. split; [by intros ->|]. by intros v ->.
    + rewrite (song_of_entry_skip _ _ Hk) in Hs. discriminate.
  - intros query w r es songs w' Hret He.
    rewrite search_songs_run, Hret, (searched_entries _ _ _ He).
    destruct (collect_songs pyd es []) as [ss|] eqn:Hc; [|discriminate].
    intros [= <- _]. apply collect_songs_kept in Hc as (ss' & -> & Hss). simpl.
    eapply Forall2_songs; [|exact Hss].
    intros e s Hk Hs. by destruct (song_of_entry_fields _ _ _ Hk Hs) as (_ & _ & ?).
  - intros urls w responses w'. rewrite aggregate_run. intros [= <- _].
    apply Forall_forall. intros b ((u & o) & Hin & Hb)%list_elem_of_omap.
    destruct (batch_Some _ _ _ Hb) as (r & -> & _ & Hu & Hss).
    exists u, r. repeat split; try done.
    eapply Forall2_songs; [|exact Hss].
    intros e s Hk Hs. by destruct (song_of_entry_fields _ _ _ Hk Hs) as (_ & _ & ?).
Qed.

End aggregate_facts.

Lemma printing_console_isolates_failures_witness :
  ∃ b1 b3,
    batch PydanticV2 ("artist1", Returns (Some (sample_listing "artist1"))) = Some b1 ∧
    batch PydanticV2 ("artist3", Returns (Some (sample_listing "artist3"))) = Some b3 ∧
    (collect_artists sample_ydl PydanticV2 every_line
       ["artist1"; "artist2"; "artist3"] empty_world).1 = Ok [b1; b3] ∧
    (get_artist_songs_from sample_ydl PydanticV2 every_line
       ["artist1"; "artist2"; "artist3"] empty_world).1 = Ok [b1; b3].
Proof.
  destruct (batch PydanticV2 ("artist1", Returns (Some (sample_listing "artist1"))))
    as [b1|] eqn:H1; [|vm_compute in H1; discriminate].
  destruct (batch PydanticV2 ("artist3", Returns (Some (sample_listing "artist3"))))
    as [b3|] eqn:H3; [|vm_compute in H3; discriminate].
  exists b1, b3. split; [reflexivity|]. split; [reflexivity|].
  apply (printing_console_isolates_failures sample_ydl PydanticV2 every_line
           ["artist1"; "artist2"; "artist3"] empty_world (λ _, eq_refl))
    with (u1 := "artist1") (u2 := "artist2") (u3 := "artist3")
         (o1 := Returns (Some (sample_listing "artist1")))
         (msg := "ERROR: Unable to download")
         (o3 := Returns (Some (sample_listing "artist3"))).
  - reflexivity.
  - reflexivity.
  - exact H1.
  - exact H3.
Defined.

Lemma duration_of_tracks_witness :
  ∃ e, Some sample_entry = Some e ∧
       (e !! "duration" = None → duration sample_song = "0") ∧
       (∀ v, e !! "duration" = Some v → duration sample_song = py_str v).
Proof.
  apply (duration_of_tracks sample_ydl PydanticV2).
  vm_compute. reflexivity.
Defined.

Example duration_of_tracks_found :
  (duration <$> songs_of (search_songs sample_ydl PydanticV2 "bernadya" empty_world).1)
  = ["213"; "0"].
Proof. vm_compute. reflexivity. Qed.

(** * Further properties of the handlers *)

(** ** The stable sort, on any keys *)

Section sorted_more.
Context {A : Type} (key : A → pyval).

Lemma py_lt_raises a b e : py_lt a b = Raise e → e = TypeError.
Proof. destruct a, b; simpl; congruence. Qed.

Lemma py_lt_None_r a : py_lt a VNone = Raise TypeError.
Proof. by destruct a. Qed.

Lemma insert_sorted_perm x l r : insert_sorted key x l = Ok r → r ≡ₚ x :: l.
Proof.
  revert r. induction l as [|y ys IH]; intros r; simpl.
  - by intros [= <-].
  - destruct (py_lt (key y) (key x)) as [[]|]; simpl; [|by intros [= <-]|done].
    destruct (insert_sorted key x ys) as [r'|]; simpl; [|done].
    intros [= <-]. rewrite (IH r' eq_refl). apply perm_swap.
Qed.

Lemma sort_stable_perm l s : sort_stable key l = Ok s → s ≡ₚ l.
Proof.
  revert s. induction l as [|x xs IH]; intros s; simpl.
  - by intros [= <-].
  - destruct (sort_stable key xs) as [s'|]; simpl; [|done].
    intros Hr%insert_sorted_perm. by rewrite Hr, (IH s' eq_refl).
Qed.

Lemma insert_sorted_raises x l e : insert_sorted key x l = Raise e → e = TypeError.
Proof.
  induction l as [|y ys IH]; simpl; [done|].
  destruct (py_lt (key y) (key x)) as [[]|e'] eqn:Hlt; simpl.
  - destruct (insert_sorted key x ys); simpl; [done|]. intros [= <-]. by apply IH.
  - done.
  - intros [= <-]. by eapply py_lt_raises.
Qed.

Lemma sort_stable_raises l e : sort_stable key l = Raise e → e = TypeError.
Proof.
  induction l as [|x xs IH]; simpl; [done|].
  destruct (sort_stable key xs); simpl.
  - apply insert_sorted_raises.
  - intros [= <-]. by apply IH.
Qed.

(** Two elements or more, one of them with the key [None]: a comparison
    raises. *)
Lemma sort_stable_None_key l :
  (2 ≤ length l)%nat → (∃ x, x ∈ l ∧ key x = VNone) →
  sort_stable key l = Raise TypeError.
Proof.
  induction l as [|x xs IH]; simpl; [lia|]. intros Hlen (z & Hz & Hnone).
  destruct (sort_stable key xs) as [s|e] eqn:Hs; simpl.
  - destruct xs as [|y ys]; [simpl in Hlen; lia|].
    destruct ys as [|y' ys'].
    + simpl in Hs. injection Hs as <-. simpl.
      apply elem_of_cons in Hz as [->|Hz].
      * rewrite Hnone. by rewrite py_lt_None_r.
      * apply list_elem_of_singleton in Hz as ->. by rewrite Hnone.
    + apply elem_of_cons in Hz as [->|Hz].
      * pose proof (sort_stable_perm _ _ Hs) as Hp.
        destruct s as [|s0 s']; [by apply Permutation_nil_cons in Hp|].
        simpl. rewrite Hnone. by rewrite py_lt_None_r.
      * discriminate IH; [simpl; lia | by exists z].
  - f_equal. by eapply sort_stable_raises.
Qed.

Lemma py_sorted_None_key l :
  (2 ≤ length l)%nat → (∃ x, x ∈ l ∧ key x = VNone) →
  py_sorted key true l = Raise TypeError.
Proof.
  intros Hlen (x & Hx & Hnone). unfold py_sorted.
  rewrite sort_stable_None_key; [done | by rewrite length_rev |].
  exists x. split; [by apply elem_of_rev | done].
Qed.

End sorted_more.

(** ** More on stream resolution *)

Lemma stream_key_inj a b : stream_key a = stream_key b → a = b.
Proof. unfold stream_key. cbv [String.append]. by intros [= H]. Qed.

Lemma list_getitem0_elem_of {A} (l : list A) b : list_getitem0 l = Ok b → b ∈ l.
Proof. destruct l; [done|]. intros [= <-]. left. Qed.

Lemma py_sorted_perm {A} (key : A → pyval) l s :
  py_sorted key true l = Ok s → s ≡ₚ l.
Proof.
  unfold py_sorted. destruct (sort_stable key (rev l)) as [s'|] eqn:Hs; simpl; [|done].
  intros [= <-]. apply sort_stable_perm in Hs.
  by rewrite <- Permutation_rev, Hs, <- Permutation_rev.
Qed.

(** The url selected is the url of one of the formats. *)
Lemma select_stream_url_elem_of audio u :
  select_stream_url audio = Ok u → ∃ f, f ∈ audio ∧ f !! "url" = Some u.
Proof.
  unfold select_stream_url.
  destruct (py_sorted quality true audio) as [s|] eqn:Hs; simpl; [|done].
  destruct (list_getitem0 s) as [b|] eqn:Hb; simpl; [|done].
  unfold dict_getitem. destruct (b !! "url") as [v|] eqn:Hv; [|done].
  intros [= <-]. exists b. split; [|done].
  apply py_sorted_perm in Hs. rewrite <- Hs. by apply list_getitem0_elem_of.
Qed.

Section stream_more.
Variable ydl : provider.

(** The call on a miss, in one equation. *)
Lemma fetch_stream_url_miss video_id w :
  fresh_entry (stream_key video_id) w = None →
  fetch_stream_url ydl video_id w =
    let o := (ydl STREAM_OPTS (watch_url video_id) (wall_clock w)).1 in
    let w1 := called STREAM_OPTS (watch_url video_id)
                (ydl STREAM_OPTS (watch_url video_id) (wall_clock w)).2 w in
    match resolved o with
    | Ok stream_url =>
        (Ok stream_url,
         with_cache (<[stream_key video_id := (stream_url, wall_clock w1)]>
                       (song_cache w)) w1)
    | Raise _ => (Raise (HTTPException 404), w1)
    end.
Proof. intros Hmiss. by rewrite fetch_stream_url_run, Hmiss, resolve_stream_run. Qed.

Lemma fresh_entry_Some key w d :
  fresh_entry key w = Some d ↔
  ∃ T, song_cache w !! key = Some (d, T) ∧ wall_clock w - T < CACHE_TIMEOUT.
Proof.
  unfold fresh_entry. destruct (song_cache w !! key) as [[d' T]|].
  - case_bool_decide; split.
    + intros [= ->]. by exists T.
    + by intros (T' & [= -> ->] & _).
    + done.
    + intros (T' & [= -> ->] & ?). lia.
  - split; [done|]. by intros (T & ? & _).
Qed.

Lemma fresh_entry_None key w :
  fresh_entry key w = None ↔
  ∀ d T, song_cache w !! key = Some (d, T) → CACHE_TIMEOUT ≤ wall_clock w - T.
Proof.
  unfold fresh_entry. destruct (song_cache w !! key) as [[d' T]|].
  - case_bool_decide; split.
    + done.
    + intros H'. specialize (H' d' T eq_refl). lia.
    + intros _ d T' [= -> ->]. lia.
    + done.
  - split; [|done]. by intros _ d T.
Qed.

(** X1: a call asks the provider at most once, under [STREAM_OPTS] and
    for the watch url of the id.  It does not ask at all, and changes
    nothing, when the cache has an entry for the key whose age is below
    30 minutes (an entry stamped in the future is one); it asks once in
    every other case, the key being absent or its entry 30 minutes old
    or more, and the clock then moves by the time the call took. *)
Theorem provider_asked_unless_fresh video_id w :
  let key := stream_key video_id in
  let ask := (STREAM_OPTS, watch_url video_id) in
  let w' := (fetch_stream_url ydl video_id w).2 in
  (∀ d T, song_cache w !! key = Some (d, T) →
          wall_clock w - T < CACHE_TIMEOUT →
          fetch_stream_url ydl video_id w = (Ok d, w)) ∧
  (∀ d T, song_cache w !! key = Some (d, T) → wall_clock w ≤ T →
          fetch_stream_url ydl video_id w = (Ok d, w)) ∧
  ((∀ d T, song_cache w !! key = Some (d, T) →
           CACHE_TIMEOUT ≤ wall_clock w - T) →
   provider_calls w' = provider_calls w ++ [ask] ∧
   wall_clock w' = wall_clock w + (ydl STREAM_OPTS (watch_url video_id) (wall_clock w)).2) ∧
  (provider_calls w' = provider_calls w ∨
   provider_calls w' = provider_calls w ++ [ask]).
Proof.
  intros key ask w'.
  assert (Hhit : ∀ d T, song_cache w !! key = Some (d, T) →
          wall_clock w - T < CACHE_TIMEOUT →
          fetch_stream_url ydl video_id w = (Ok d, w)).
  { intros d T Hc Hage. rewrite fetch_stream_url_run.
    replace (fresh_entry (stream_key video_id) w) with (Some d); [done|].
    symmetry. apply fresh_entry_Some. by exists T. }
  assert (Hmiss : fresh_entry key w = None →
    provider_calls w' = provider_calls w ++ [ask] ∧
    wall_clock w' = wall_clock w + (ydl STREAM_OPTS (watch_url video_id) (wall_clock w)).2).
  { intros Hnone. unfold w'. rewrite (fetch_stream_url_miss _ _ Hnone). simpl.
    by destruct (resolved _). }
  split; [exact Hhit|]. split; [|split].
  - intros d T Hc Hfut. apply (Hhit d T Hc). unfold CACHE_TIMEOUT. lia.
  - intros Hold. apply Hmiss. by apply fresh_entry_None.
  - destruct (fresh_entry key w) as [d|] eqn:Hf.
    + left. apply fresh_entry_Some in Hf as (T & Hc & Hage).
      unfold w'. by rewrite (Hhit d T Hc Hage).
    + right. by apply Hmiss.
Qed.

(** X2: whether it succeeds or fails, a call leaves every cache entry
    but the one of its own key as it is; two ids never share a key, so
    resolving one video never touches the entry of another. *)
Theorem resolve_touches_its_key_only video_id w :
  let w' := (fetch_stream_url ydl video_id w).2 in
  (∀ k, k ≠ stream_key video_id → song_cache w' !! k = song_cache w !! k) ∧
  (∀ other, other ≠ video_id →
     song_cache w' !! stream_key other = song_cache w !! stream_key other).
Proof.
  intros w'.
  assert (Hk : ∀ k, k ≠ stream_key video_id → song_cache w' !! k = song_cache w !! k).
  { intros k Hne. unfold w'. rewrite fetch_stream_url_run.
    destruct (fresh_entry _ w); [done|]. rewrite resolve_stream_run. simpl.
    destruct (resolved _); simpl; [|done]. by rewrite lookup_insert_ne. }
  split; [exact Hk|]. intros other Hne. apply Hk. intros Heq. by apply stream_key_inj in Heq.
Qed.

(** X3: when a call that had to ask the provider succeeds, the url it
    returns is the url field of one of the formats the provider gave
    that pass the filter of line 167, and the cache after the call is the
    cache before it with the key set (an older entry overwritten) to this
    url and the time at which the provider's answer came. *)
Theorem resolved_url_is_a_provider_url video_id w stream_url w' :
  fresh_entry (stream_key video_id) w = None →
  fetch_stream_url ydl video_id w = (Ok stream_url, w') →
  ∃ i fs f,
    (ydl STREAM_OPTS (watch_url video_id) (wall_clock w)).1 = Returns i ∧
    info_formats i = Ok fs ∧
    f ∈ fs ∧ kept_by_filter f ∧ f !! "url" = Some stream_url ∧
    wall_clock w' =
      wall_clock w + (ydl STREAM_OPTS (watch_url video_id) (wall_clock w)).2 ∧
    song_cache w' =
      <[stream_key video_id := (stream_url, wall_clock w')]> (song_cache w).
Proof.
  intros Hmiss. rewrite (fetch_stream_url_miss _ _ Hmiss). simpl.
  unfold resolved.
  destruct (ydl STREAM_OPTS _ (wall_clock w)) as [[|i] dt]; simpl; [done|].
  destruct (info_formats i) as [fs|] eqn:Hfs; simpl; [|done].
  destruct (select_stream_url (audio_formats fs)) as [u|] eqn:Hsel; [|done].
  intros [= <- <-]. apply select_stream_url_elem_of in Hsel as (f & Hf & Hu).
  rewrite audio_formats_filter in Hf. apply list_elem_of_filter in Hf as [Hk Hin].
  by exists i, fs, f.
Qed.
End stream_more.

Section selection_edges.
Variable ydl : provider.

Lemma fetch_stream_url_selected video_id w i fs :
  fresh_entry (stream_key video_id) w = None →
  (ydl STREAM_OPTS (watch_url video_id) (wall_clock w)).1 = Returns i →
  info_formats i = Ok fs →
  (fetch_stream_url ydl video_id w).1 =
    match select_stream_url (audio_formats fs) with
    | Ok stream_url => Ok stream_url
    | Raise _ => Raise (HTTPException 404)
    end.
Proof.
  intros Hmiss Hret Hfs. rewrite (fetch_stream_url_miss _ _ _ Hmiss). simpl.
  unfold resolved. rewrite Hret, Hfs. simpl.
  by destruct (select_stream_url _).
Qed.


(** X5: a quality that is [None].  With a single audio format nothing
    is compared and its url is returned whatever its quality; with two
    audio formats or more, one quality [None] among them makes the sort
    raise [TypeError], and the resolution is a 404 although every format
    may have a url. *)
Theorem null_quality_among_formats video_id w i fs :
  fresh_entry (stream_key video_id) w = None →
  (ydl STREAM_OPTS (watch_url video_id) (wall_clock w)).1 = Returns i →
  info_formats i = Ok fs →
  (∀ f stream_url, audio_formats fs = [f] → f !! "url" = Some stream_url →
     (fetch_stream_url ydl video_id w).1 = Ok stream_url) ∧
  ((2 ≤ length (audio_formats fs))%nat →
   (∃ f, f ∈ audio_formats fs ∧ f !! "quality" = Some VNone) →
   select_stream_url (audio_formats fs) = Raise TypeError ∧
   (fetch_stream_url ydl video_id w).1 = Raise (HTTPException 404)).
Proof.
  intros Hmiss Hret Hfs.
  rewrite (fetch_stream_url_selected _ _ _ _ Hmiss Hret Hfs). split.
  - intros f u -> Hu. unfold select_stream_url. simpl. unfold dict_getitem.
    by rewrite Hu.
  - intros Hlen (f & Hf & Hq).
    assert (Hsel : select_stream_url (audio_formats fs) = Raise TypeError).
    { unfold select_stream_url. rewrite py_sorted_None_key; [done | done |].
      exists f. split; [done|]. unfold quality, dict_get_or. by rewrite Hq. }
    by rewrite Hsel.
Qed.
End selection_edges.

(** ** More on the normalisation of entries *)

Lemma validate_str_raises pyd v x : validate_str pyd v = Raise x → x = ValidationError.
Proof. destruct v, pyd; simpl; congruence. Qed.

Lemma new_Song_raises pyd t u th d v x :
  new_Song pyd t u th d v = Raise x → x = ValidationError.
Proof.
  unfold new_Song.
  destruct (validate_str pyd t) eqn:H1; simpl; [|intros [= <-]; by eapply validate_str_raises].
  destruct (validate_str pyd u) eqn:H2; simpl; [|intros [= <-]; by eapply validate_str_raises].
  destruct (validate_str pyd th) eqn:H3; simpl; [|intros [= <-]; by eapply validate_str_raises].
  destruct (validate_str pyd d) eqn:H4; simpl; [|intros [= <-]; by eapply validate_str_raises].
  destruct (validate_str pyd v) eqn:H5; simpl; [done|intros [= <-]; by eapply validate_str_raises].
Qed.

Lemma song_of_entry_raises pyd entry x :
  song_of_entry pyd entry = Raise x → x = ValidationError.
Proof.
  destruct (kept_entry entry) as [e|] eqn:Hk.
  - destruct (song_of_entry_kept pyd _ _ Hk) as [_ ->].
    destruct (new_Song _ _ _ _ _ _) eqn:Hn; simpl; [done|].
    intros [= <-]. by eapply new_Song_raises.
  - by rewrite (song_of_entry_skip _ _ Hk).
Qed.

(** A title that is [None] is refused. *)
Lemma song_of_entry_null_title pyd e :
  kept_entry (Some e) = Some e → e !! "title" = Some VNone →
  song_of_entry pyd (Some e) = Raise ValidationError.
Proof.
  intros Hk Ht. destruct (song_of_entry_kept pyd _ _ Hk) as [_ ->].
  unfold new_Song. replace (dict_get_or e "title" (VStr "")) with VNone; [done|].
  unfold dict_get_or. by rewrite Ht.
Qed.

(** One entry that is refused makes the loop raise. *)
Lemma collect_songs_refused pyd es acc e :
  e ∈ kept_entries es →
  song_of_entry pyd (Some e) = Raise ValidationError →
  collect_songs pyd es acc = Raise ValidationError.
Proof.
  revert acc. induction es as [|entry es IH]; intros acc Hin Hbad.
  - by apply elem_of_nil in Hin.
  - rewrite kept_entries_cons in Hin. cbn [collect_songs].
    destruct (song_of_entry pyd entry) as [o|x] eqn:Hs; cbn [mbind result_bind].
    + apply IH; [|done]. destruct (kept_entry entry) as [e'|] eqn:Hk; [|done].
      apply elem_of_cons in Hin as [->|Hin]; [|done].
      destruct (song_of_entry_kept pyd _ _ Hk) as [-> _]. congruence.
    + f_equal. by eapply song_of_entry_raises.
Qed.

(** The title and the thumbnail of the song of a kept entry. *)
Lemma song_of_entry_title_thumbnail pyd e s :
  kept_entry (Some e) = Some e →
  song_of_entry pyd (Some e) = Ok (Some s) →
  title s = py_str (dict_get_or e "title" (VStr "")) ∧
  thumbnail s =
    match e !! "thumbnail" with
    | Some t => if truthy t then py_str t else default_thumbnail (video_id s)
    | None => default_thumbnail (video_id s)
    end ∧
  url s = watch_url (video_id s).
Proof.
  intros Hk. destruct (song_of_entry_kept pyd _ _ Hk) as [_ ->].
  unfold new_Song. simpl.
  destruct (validate_str pyd (dict_get_or e "title" _)) eqn:Ht; simpl; [|discriminate].
  destruct (validate_str pyd (py_or _ _)) eqn:Hth; simpl; [|discriminate].
  destruct (validate_str pyd (entry_id e)) as [v|] eqn:Hv; simpl; [|discriminate].
  intros [= <-]. simpl.
  apply validate_str_py_str in Ht, Hth, Hv. subst.
  split; [done|]. split; [|done].
  unfold py_or, dict_get_or, default_thumbnail.
  destruct (e !! "thumbnail") as [t|]; simpl; [|done]. by destruct (truthy t).
Qed.

(** ** More on aggregation and search *)

Lemma info_falsy_empty r : info_falsy r = true ↔ empty_info r.
Proof.
  unfold info_falsy, empty_info.
  rewrite !andb_true_iff, !bool_decide_eq_true. tauto.
Qed.

Lemma batch_nothing_listed pyd u o : nothing_listed o → batch pyd (u, o) = None.
Proof.
  destruct o as [|[r|]]; simpl; try done.
  intros He%info_falsy_empty. unfold batch. simpl. by rewrite He.
Qed.

Lemma batch_name pyd u o b :
  batch pyd (u, o) = Some b →
  ∃ r, o = Returns (Some r) ∧ artist_url b = u ∧
       validate_str pyd (channel_of r) = Ok (artist_name b).
Proof.
  unfold batch. simpl. destruct o as [|[r|]]; try done.
  destruct (info_falsy r); [done|].
  destruct (artist_songs pyd r) as [ss|]; simpl; [|done].
  unfold new_SongResponse. simpl.
  destruct (validate_str pyd (channel_of r)) as [n|] eqn:Hn; simpl; [|done].
  intros [= <-]. exists r. simpl. by rewrite Hn.
Qed.

Section listing_more.
Variable ydl : provider.
Variable pyd : pydantic.

Lemma outcomes_with_cache c urls w :
  outcomes ydl urls (with_cache c w) = outcomes ydl urls w.
Proof.
  revert c w. induction urls as [|u urls IH]; intros c w; [done|].
  simpl. f_equal. apply (IH c (called YDL_OPTS u _ w)).
Qed.

Lemma listed_cache urls w : song_cache (listed ydl urls w) = song_cache w.
Proof. revert w. induction urls as [|u urls IH]; intros w; simpl; [done|]. by rewrite IH. Qed.

Lemma no_batch_deleted urls w i u o :
  urls !! i = Some u → outcomes ydl urls w !! i = Some o →
  batch pyd (u, o) = None →
  (aggregate ydl pyd urls w).1
    = Ok (omap (batch pyd) (delete i (zip urls (outcomes ydl urls w)))).
Proof.
  intros Hu Ho Hb. rewrite aggregate_run. simpl. f_equal. symmetry.
  apply (omap_delete_None _ _ i (u, o)); [|done].
  rewrite lookup_zip_with, Hu. simpl. by rewrite Ho.
Qed.

(** X6: a locator for which the provider returns [None] or an empty
    dict is passed over like one whose call raises: the batches are
    those of the other locators. *)
Theorem empty_result_gives_no_batch urls w i u :
  urls !! i = Some u →
  (outcomes ydl urls w !! i = Some (Returns None) ∨
   ∃ r, outcomes ydl urls w !! i = Some (Returns (Some r)) ∧ empty_info r) →
  (aggregate ydl pyd urls w).1
    = Ok (omap (batch pyd) (delete i (zip urls (outcomes ydl urls w)))).
Proof.
  intros Hu [Ho|(r & Ho & He)]; eapply no_batch_deleted; try done;
    by apply batch_nothing_listed.
Qed.

End listing_more.

Section listing_names.
Variable ydl : provider.
Variable pyd : pydantic.

(** X8: the name of a batch is the channel of its result, "Unknown
    Artist" when the result has no channel key; a channel that is
    [None] never gets a batch. *)
Theorem artist_name_of_batches urls w responses w' :
  aggregate ydl pyd urls w = (Ok responses, w') →
  Forall (λ b, ∃ u r,
            (u, Returns (Some r)) ∈ zip urls (outcomes ydl urls w) ∧
            artist_url b = u ∧
            (fields r !! "channel" = None → artist_name b = "Unknown Artist") ∧
            (∀ v, fields r !! "channel" = Some v →
                  v ≠ VNone ∧ artist_name b = py_str v))
         responses.
Proof.
  rewrite aggregate_run. intros [= <- _].
  apply Forall_forall. intros b ((u & o) & Hin & Hb)%list_elem_of_omap.
  destruct (batch_name _ _ _ _ Hb) as (r & -> & Hu & Hname).
  exists u, r. split; [done|]. split; [done|].
  unfold channel_of, dict_get_or in Hname. split.
  - intros Hc. rewrite Hc in Hname. simpl in Hname. congruence.
  - intros v Hc. rewrite Hc in Hname. simpl in Hname. split.
    + intros ->. discriminate.
    + by apply validate_str_py_str in Hname.
Qed.

(** X9: one entry with an id and a title that is [None] costs the
    artist the whole batch: pydantic refuses the song, the [except] of
    line 132 drops what was collected for this locator, and the batches
    are those of the other locators. *)
Theorem null_title_drops_the_batch urls w i u r es e :
  urls !! i = Some u →
  outcomes ydl urls w !! i = Some (Returns (Some r)) →
  entries r = Some es →
  e ∈ kept_entries es → e !! "title" = Some VNone →
  (aggregate ydl pyd urls w).1
    = Ok (omap (batch pyd) (delete i (zip urls (outcomes ydl urls w)))).
Proof.
  intros Hu Ho He Hin Ht. eapply no_batch_deleted; [done|done|].
  unfold batch. simpl. destruct (info_falsy r); [done|].
  unfold artist_songs, has_entries, iter_entries. rewrite He.
  rewrite (bool_decide_eq_true_2 (is_Some (Some es))) by done. simpl.
  rewrite (collect_songs_refused pyd es [] e Hin); [done|].
  apply song_of_entry_null_title; [|done].
  pose proof (kept_entries_kept es) as Hk. rewrite Forall_forall in Hk. by apply Hk.
Qed.

(** X10: in a search the same entry fails the whole request with a 500,
    whatever the other entries are. *)
Theorem null_title_fails_the_search query w r es e :
  (ydl YDL_OPTS (search_url query) (wall_clock w)).1 = Returns (Some r) →
  entries r = Some es →
  e ∈ kept_entries es → e !! "title" = Some VNone →
  (search_songs ydl pyd query w).1 = Raise (HTTPException 500).
Proof.
  intros Hret He Hin Ht.
  rewrite search_songs_run, Hret, (searched_entries _ _ _ He). simpl.
  rewrite (collect_songs_refused pyd es [] e Hin); [done|].
  apply song_of_entry_null_title; [|done].
  pose proof (kept_entries_kept es) as Hk. rewrite Forall_forall in Hk. by apply Hk.
Qed.

(** What leaves the loop is what the [print] of line 133 raised. *)
Lemma artist_loop_raises stdout urls responses w e w' :
  artist_loop ydl pyd stdout urls responses w = (Raise e, w') →
  e = UnicodeEncodeError ∧
  ∃ u artist_error, u ∈ urls ∧ stdout (ErrorFetching u artist_error) = false.
Proof.
  revert responses w. induction urls as [|u urls IH]; intros responses w; [done|].
  cbn [artist_loop]. unfold mbind at 1, M_bind at 1.
  destruct (try_except _ _ w) as [[responses'|e0] w1] eqn:Hturn.
  - intros (-> & u' & err & Hin & Hf)%IH. split; [done|].
    exists u', err. split; [by right|done].
  - intros [= <- <-]. revert Hturn. unfold try_except.
    destruct (artist_body ydl pyd stdout u responses w) as [[a|e1] w2]; [done|].
    unfold mbind, M_bind, print.
    destruct (stdout (ErrorFetching u e1)) eqn:Hp; [done|].
    intros [= <- _]. split; [done|]. exists u, e1. split; [left|done].
Qed.

(** X11: what the handler of the artists raises.  It never returns an
    empty list.  It raises its 404 or, and then standard output did not
    take the error line of line 133 for one of the locators, the 500 of
    line 138 (the error of [print] itself when line 137 is not taken
    either).  On a standard output that takes every line it raises its
    404 whenever no locator gives a batch: with no locator at all, or
    when every call raises or returns [None] or an empty dict. *)
Theorem get_artist_songs_not_found stdout urls w :
  (∀ responses, (get_artist_songs_from ydl pyd stdout urls w).1 = Ok responses →
                responses ≠ []) ∧
  (∀ e, (get_artist_songs_from ydl pyd stdout urls w).1 = Raise e →
        e = HTTPException 404 ∨
        ((e = HTTPException 500 ∨ e = UnicodeEncodeError) ∧
         ∃ u artist_error,
           u ∈ urls ∧ stdout (ErrorFetching u artist_error) = false)) ∧
  ((∀ l, stdout l = true) →
   Forall nothing_listed (outcomes ydl urls w) →
   (get_artist_songs_from ydl pyd stdout urls w).1 = Raise (HTTPException 404)).
Proof.
  split; [|split].
  - intros responses. unfold get_artist_songs_from, collect_artists, try_except,
      mbind, M_bind, print, raise.
    destruct (artist_loop ydl pyd stdout urls [] w) as [[[|b bs]|e0] w1]; simpl.
    + done.
    + by intros [= <-].
    + destruct (stdout (FatalError e0)); done.
  - intros e. unfold get_artist_songs_from, collect_artists, try_except,
      mbind, M_bind, print, raise.
    destruct (artist_loop ydl pyd stdout urls [] w) as [[[|b bs]|e0] w1] eqn:Hloop; simpl.
    + intros [= <-]. by left.
    + done.
    + apply artist_loop_raises in Hloop as (_ & Hline).
      destruct (stdout (FatalError e0)); simpl; intros Heq; injection Heq as <-;
        right; split; auto.
  - intros Hq Hnone. rewrite get_artist_songs_from_run by done.
    assert (Hempty : omap (batch pyd) (zip urls (outcomes ydl urls w)) = []).
    { generalize dependent (outcomes ydl urls w). intros os. revert urls.
      induction os as [|o os IH]; intros urls Hnone.
      - by destruct urls.
      - destruct urls as [|u urls]; [done|].
        apply Forall_cons in Hnone as [Ho Hos]. cbn [zip_with].
        change (omap (batch pyd) ((u, o) :: zip urls os))
          with (match batch pyd (u, o) with
                | Some b => b :: omap (batch pyd) (zip urls os)
                | None => omap (batch pyd) (zip urls os)
                end).
        rewrite (batch_nothing_listed _ _ _ Ho). by apply IH. }
    by rewrite Hempty.
Qed.

(** X12: the two listing handlers neither read nor write the cache:
    they leave it as it is, and what they answer is the same whatever
    it holds. *)
Theorem listing_handlers_ignore_the_cache urls query w c :
  song_cache (get_artist_songs_of ydl pyd urls w).2 = song_cache w ∧
  song_cache (search_songs ydl pyd query w).2 = song_cache w ∧
  (get_artist_songs_of ydl pyd urls (with_cache c w)).1
    = (get_artist_songs_of ydl pyd urls w).1 ∧
  (search_songs ydl pyd query (with_cache c w)).1
    = (search_songs ydl pyd query w).1.
Proof.
  rewrite !get_artist_songs_of_run, !search_songs_run, outcomes_with_cache. simpl.
  repeat split.
  - destruct (omap _ _); simpl; apply listed_cache.
  - by destruct (omap _ _).
Qed.

(** X13: what a search answers when there is nothing to normalise.  The
    provider is asked once, for "ytsearch10:" and the query.  When it
    raises the search is a 500; when it returns [None], an empty dict or
    a dict without an entries key the search returns the empty list.
    The search raises nothing but the 500. *)
Theorem search_songs_without_entries query w :
  let o := (ydl YDL_OPTS (search_url query) (wall_clock w)).1 in
  provider_calls (search_songs ydl pyd query w).2
    = provider_calls w ++ [(YDL_OPTS, "ytsearch10:" +:+ query)] ∧
  (∀ msg, o = Raises msg →
          (search_songs ydl pyd query w).1 = Raise (HTTPException 500)) ∧
  (o = Returns None → (search_songs ydl pyd query w).1 = Ok []) ∧
  (∀ r, o = Returns (Some r) →
        empty_info r ∨ (entries r = None ∧ fields r !! "entries" = None) →
        (search_songs ydl pyd query w).1 = Ok []) ∧
  (∀ e, (search_songs ydl pyd query w).1 = Raise e → e = HTTPException 500).
Proof.
  intros o. rewrite search_songs_run. fold o. simpl. clearbody o.
  split; [done|]. split; [by intros msg ->|]. split; [by intros ->|]. split.
  - intros r -> [He|[He Hf]]; simpl.
    + apply info_falsy_empty in He. by rewrite He.
    + unfold has_entries. rewrite He, Hf.
      rewrite !bool_decide_eq_false_2 by (by intros [? ?]).
      simpl. by rewrite orb_true_r.
  - intros e. destruct o as [|[r|]]; simpl; [congruence| |congruence].
    destruct (_ || _); [congruence|]. destruct (_ ≫= _); congruence.
Qed.
End listing_names.

Lemma song_of_entry_normalised pyd e s :
  kept_entry (Some e) = Some e →
  song_of_entry pyd (Some e) = Ok (Some s) → normalised e s.
Proof.
  intros Hk Hs. destruct (song_of_entry_title_thumbnail _ _ _ Hk Hs) as (Ht & Hth & Hu).
  unfold normalised. split; [|by split].
  rewrite Ht. unfold dict_get_or. by destruct (e !! "title").
Qed.

Section tracks_more.
Variable ydl : provider.
Variable pyd : pydantic.

(** X14: every track the search returns, and every track of every batch
    of the aggregation, has the title of its entry ("" without a title
    key), the thumbnail of its entry or, when the entry has none or a
    falsy one, the default image of its id, and the watch url of its own
    [video_id]. *)
Theorem tracks_are_normalised :
  (∀ query w r es songs w',
     (ydl YDL_OPTS (search_url query) (wall_clock w)).1 = Returns (Some r) →
     entries r = Some es →
     search_songs ydl pyd query w = (Ok songs, w') →
     Forall2 normalised (kept_entries es) songs) ∧
  (∀ urls w responses w',
     aggregate ydl pyd urls w = (Ok responses, w') →
     Forall (λ b, ∃ u r,
               (u, Returns (Some r)) ∈ zip urls (outcomes ydl urls w) ∧
               artist_url b = u ∧
               Forall2 normalised (kept_entries (listed_entries r)) (songs b))
            responses).
Proof.
  split.
  - intros query w r es songs w' Hret He.
    rewrite search_songs_run, Hret, (searched_entries _ _ _ He).
    destruct (collect_songs pyd es []) as [ss|] eqn:Hc; [|discriminate].
    intros [= <- _]. apply collect_songs_kept in Hc as (ss' & -> & Hss). simpl.
    eapply Forall2_songs; [|exact Hss]. apply song_of_entry_normalised.
  - intros urls w responses w'. rewrite aggregate_run. intros [= <- _].
    apply Forall_forall. intros b ((u & o) & Hin & Hb)%list_elem_of_omap.
    destruct (batch_Some _ _ _ _ Hb) as (r & -> & _ & Hu & Hss).
    exists u, r. repeat split; try done.
    eapply Forall2_songs; [|exact Hss]. apply song_of_entry_normalised.
Qed.
End tracks_more.

(** ** The cache over a run of requests *)

Lemma keeps_cache_ret {A} (a : A) : keeps_cache (mret a).
Proof. by intros w. Qed.

Lemma keeps_cache_raise {A} e : keeps_cache (@raise A e).
Proof. by intros w. Qed.

Lemma keeps_cache_lift {A} (r : result A) : keeps_cache (lift r).
Proof. by intros w. Qed.

Lemma keeps_cache_print stdout l : keeps_cache (print stdout l).
Proof. intros w. unfold print. by destruct (stdout l). Qed.

Lemma keeps_cache_bind {A B} (m : M A) (f : A → M B) :
  keeps_cache m → (∀ a, keeps_cache (f a)) → keeps_cache (m ≫= f).
Proof.
  intros Hm Hf w. unfold mbind, M_bind. specialize (Hm w).
  destruct (m w) as [[a|e] w1]; simpl in *; [|done]. by rewrite Hf.
Qed.

Lemma keeps_cache_try_except {A} (m : M A) (h : exn → M A) :
  keeps_cache m → (∀ e, keeps_cache (h e)) → keeps_cache (try_except m h).
Proof.
  intros Hm Hh w. unfold try_except. specialize (Hm w).
  destruct (m w) as [[a|e] w1]; simpl in *; [done|]. by rewrite Hh.
Qed.

Lemma keeps_cache_extract_info ydl opts url : keeps_cache (extract_info ydl opts url).
Proof.
  intros w. unfold extract_info.
  by destruct (ydl opts url (wall_clock w)) as [[msg|r] dt].
Qed.

Section app_facts.
Variable ydl : provider.
Variable pyd : pydantic.
Variable stdout : console.

Lemma keeps_cache_artist_body u responses :
  keeps_cache (artist_body ydl pyd stdout u responses).
Proof.
  unfold artist_body.
  apply keeps_cache_bind; [apply keeps_cache_print|]. intros _.
  apply keeps_cache_bind; [apply keeps_cache_extract_info|]. intros [r|].
  - destruct (info_falsy r).
    + apply keeps_cache_bind; [apply keeps_cache_print|]. intros _. apply keeps_cache_ret.
    + apply keeps_cache_bind; [apply keeps_cache_lift|]. intros songs.
      apply keeps_cache_bind; [apply keeps_cache_lift|]. intros b. apply keeps_cache_ret.
  - apply keeps_cache_bind; [apply keeps_cache_print|]. intros _. apply keeps_cache_ret.
Qed.

Lemma keeps_cache_artist_loop urls responses :
  keeps_cache (artist_loop ydl pyd stdout urls responses).
Proof.
  revert responses. induction urls as [|u urls IH]; intros responses.
  - apply keeps_cache_ret.
  - cbn [artist_loop]. apply keeps_cache_bind; [|apply IH].
    apply keeps_cache_try_except; [apply keeps_cache_artist_body|]. intros e.
    apply keeps_cache_bind; [apply keeps_cache_print|]. intros _. apply keeps_cache_ret.
Qed.

Lemma keeps_cache_get_artist_songs_from urls :
  keeps_cache (get_artist_songs_from ydl pyd stdout urls).
Proof.
  unfold get_artist_songs_from, collect_artists.
  apply keeps_cache_bind.
  - apply keeps_cache_try_except; [apply keeps_cache_artist_loop|]. intros e.
    apply keeps_cache_bind; [apply keeps_cache_print|]. intros _. apply keeps_cache_raise.
  - intros [|b bs]; [apply keeps_cache_raise | apply keeps_cache_ret].
Qed.

Lemma route_world req w :
  (route ydl pyd stdout req w).2 =
    match req with
    | GetArtistSongs => (get_artist_songs ydl pyd stdout w).2
    | GetStreamUrl video_id => (fetch_stream_url ydl video_id w).2
    | SearchSongs query => (search_songs ydl pyd query w).2
    end.
Proof.
  destruct req as [|video_id|query]; unfold route, mbind, M_bind.
  - by destruct (get_artist_songs ydl pyd stdout w) as [[]].
  - rewrite get_stream_url_run. by destruct (fetch_stream_url ydl video_id w) as [[]].
  - by destruct (search_songs ydl pyd query w) as [[]].
Qed.

(** What one request does to one key of the cache. *)
Lemma route_cache req w k :
  song_cache (route ydl pyd stdout req w).2 !! k = song_cache w !! k ∨
  ∃ video_id, req = GetStreamUrl video_id ∧ k = stream_key video_id ∧
              is_Some (song_cache (route ydl pyd stdout req w).2 !! k).
Proof.
  rewrite route_world. destruct req as [|video_id|query].
  - left. unfold get_artist_songs.
    by rewrite (keeps_cache_get_artist_songs_from ARTIST_URLS w).
  - rewrite fetch_stream_url_run. destruct (fresh_entry _ w); [by left|].
    rewrite resolve_stream_run. simpl. destruct (resolved _); simpl; [|by left].
    destruct (decide (k = stream_key video_id)) as [->|Hne].
    + right. exists video_id. rewrite lookup_insert_eq. by eauto.
    + left. by rewrite lookup_insert_ne.
  - left. by rewrite search_songs_run.
Qed.

(** X15: over any run of requests, at any times, the entry of a key
    changes only when a stream request for the id of this key is
    handled; from the empty cache, every key of the cache is therefore
    "stream_" followed by an id that was asked for. *)
Theorem cache_keys_come_from_stream_requests reqs w k :
  ((∀ t video_id, (t, GetStreamUrl video_id) ∈ reqs → k ≠ stream_key video_id) →
   song_cache (serve ydl pyd stdout reqs w) !! k = song_cache w !! k) ∧
  (song_cache w = ∅ → is_Some (song_cache (serve ydl pyd stdout reqs w) !! k) →
   ∃ t video_id, (t, GetStreamUrl video_id) ∈ reqs ∧ k = "stream_" +:+ video_id).
Proof.
  assert (Hkeep : ∀ reqs w,
    (∀ t video_id, (t, GetStreamUrl video_id) ∈ reqs → k ≠ stream_key video_id) →
    song_cache (serve ydl pyd stdout reqs w) !! k = song_cache w !! k).
  { clear. intros reqs. induction reqs as [|[t req] reqs IH]; intros w Hno; [done|].
    simpl. rewrite IH.
    - destruct (route_cache req (at_time t w) k) as [->|(id & -> & -> & _)]; [done|].
      exfalso. eapply Hno; [left|done].
    - intros t' id Hin. eapply Hno. by right. }
  split; [apply Hkeep|].
  assert (Hfrom : ∀ reqs w,
    is_Some (song_cache (serve ydl pyd stdout reqs w) !! k) →
    is_Some (song_cache w !! k) ∨
    ∃ t video_id, (t, GetStreamUrl video_id) ∈ reqs ∧ k = stream_key video_id).
  { clear. intros reqs. induction reqs as [|[t req] reqs IH]; intros w Hsome; [by left|].
    simpl in Hsome. apply IH in Hsome as [Hsome|(t' & id & Hin & Hk)].
    - destruct (route_cache req (at_time t w) k) as [Heq|(id & -> & -> & _)].
      + left. by rewrite Heq in Hsome.
      + right. exists t, id. split; [left|done].
    - right. exists t', id. split; [by right|done]. }
  intros Hempty Hsome. apply Hfrom in Hsome as [Hsome|Hsome]; [|exact Hsome].
  rewrite Hempty, lookup_empty in Hsome. by destruct Hsome.
Qed.

(** X16: nothing is ever evicted: a key that is in the cache stays in it
    over any run of requests, however old its entry. *)
Theorem cache_never_evicts reqs w k :
  is_Some (song_cache w !! k) →
  is_Some (song_cache (serve ydl pyd stdout reqs w) !! k).
Proof.
  revert w. induction reqs as [|[t req] reqs IH]; intros w Hk; [done|].
  simpl. apply IH.
  destruct (route_cache req (at_time t w) k) as [->|(_ & _ & _ & Hs)]; done.
Qed.
End app_facts.

(** ** The edge cases on the sample data *)

Lemma provider_asked_unless_fresh_witness :
  provider_calls (fetch_stream_url sample_ydl "abc" stale_world).2
    = provider_calls stale_world ++ [(STREAM_OPTS, watch_url "abc")] ∧
  wall_clock (fetch_stream_url sample_ydl "abc" stale_world).2
    = wall_clock stale_world
      + (sample_ydl STREAM_OPTS (watch_url "abc") (wall_clock stale_world)).2.
Proof.
  apply (provider_asked_unless_fresh sample_ydl "abc" stale_world).
  intros d T H. vm_compute in H. injection H as _ <-. vm_compute. discriminate.
Defined.

Lemma resolve_touches_its_key_only_witness :
  song_cache (fetch_stream_url sample_ydl "zzz" stale_world).2 !! stream_key "abc"
    = song_cache stale_world !! stream_key "abc".
Proof.
  apply (resolve_touches_its_key_only sample_ydl "zzz" stale_world).
  discriminate.
Defined.

Lemma resolved_url_is_a_provider_url_witness :
  ∃ i fs f,
    (sample_ydl STREAM_OPTS (watch_url "abc") (wall_clock empty_world)).1 = Returns i ∧
    info_formats i = Ok fs ∧
    f ∈ fs ∧ kept_by_filter f ∧ f !! "url" = Some (VStr "first") ∧
    wall_clock (fetch_stream_url sample_ydl "abc" empty_world).2 =
      wall_clock empty_world
      + (sample_ydl STREAM_OPTS (watch_url "abc") (wall_clock empty_world)).2 ∧
    song_cache (fetch_stream_url sample_ydl "abc" empty_world).2 =
      <[stream_key "abc" :=
          (VStr "first", wall_clock (fetch_stream_url sample_ydl "abc" empty_world).2)]>
        (song_cache empty_world).
Proof.
  apply (resolved_url_is_a_provider_url sample_ydl "abc" empty_world).
  - reflexivity.
  - vm_compute. reflexivity.
Defined.


Lemma null_quality_among_formats_witness :
  select_stream_url (audio_formats formats_null_quality) = Raise TypeError ∧
  (fetch_stream_url edge_ydl "nullq" empty_world).1 = Raise (HTTPException 404).
Proof.
  apply (null_quality_among_formats edge_ydl "nullq" empty_world
           (Some (sample_info formats_null_quality)) formats_null_quality).
  - reflexivity.
  - reflexivity.
  - reflexivity.
  - vm_compute. lia.
  - exists null_quality_format. split; [|reflexivity].
    vm_compute. right. left.
Defined.

Lemma empty_result_gives_no_batch_witness :
  (aggregate edge_ydl PydanticV2 ["artist1"; "empty"; "artist3"] empty_world).1
    = Ok (omap (batch PydanticV2)
            (delete 1%nat (zip ["artist1"; "empty"; "artist3"]
                     (outcomes edge_ydl ["artist1"; "empty"; "artist3"] empty_world)))).
Proof.
  apply (empty_result_gives_no_batch edge_ydl PydanticV2
           ["artist1"; "empty"; "artist3"] empty_world 1%nat "empty").
  - reflexivity.
  - right. exists empty_dict. split; [reflexivity|]. by repeat split.
Defined.


Lemma artist_name_of_batches_witness :
  Forall (λ b, ∃ u r,
            (u, Returns (Some r))
              ∈ zip ["bare"; "artist1"] (outcomes edge_ydl ["bare"; "artist1"] empty_world) ∧
            artist_url b = u ∧
            (fields r !! "channel" = None → artist_name b = "Unknown Artist") ∧
            (∀ v, fields r !! "channel" = Some v →
                  v ≠ VNone ∧ artist_name b = py_str v))
         (songs_of (aggregate edge_ydl PydanticV2 ["bare"; "artist1"] empty_world).1).
Proof.
  apply (artist_name_of_batches edge_ydl PydanticV2 ["bare"; "artist1"] empty_world _
           (aggregate edge_ydl PydanticV2 ["bare"; "artist1"] empty_world).2).
  vm_compute. reflexivity.
Defined.

Lemma null_title_drops_the_batch_witness :
  (aggregate edge_ydl PydanticV2 ["artist1"; "nulltitle"] empty_world).1
    = Ok (omap (batch PydanticV2)
            (delete 1%nat (zip ["artist1"; "nulltitle"]
                     (outcomes edge_ydl ["artist1"; "nulltitle"] empty_world)))).
Proof.
  apply (null_title_drops_the_batch edge_ydl PydanticV2 ["artist1"; "nulltitle"]
           empty_world 1%nat "nulltitle" null_title_listing entries_null_title
           null_title_entry).
  - reflexivity.
  - reflexivity.
  - reflexivity.
  - vm_compute. do 2 right. left.
  - reflexivity.
Defined.

Lemma null_title_fails_the_search_witness :
  (search_songs edge_ydl PydanticV2 "nulltitle" empty_world).1
    = Raise (HTTPException 500).
Proof.
  apply (null_title_fails_the_search edge_ydl PydanticV2 "nulltitle" empty_world
           null_title_listing entries_null_title null_title_entry).
  - reflexivity.
  - reflexivity.
  - vm_compute. do 2 right. left.
  - reflexivity.
Defined.

Lemma get_artist_songs_not_found_witness :
  (get_artist_songs_from edge_ydl PydanticV2 every_line ["none"; "empty"]
     empty_world).1 = Raise (HTTPException 404).
Proof.
  apply (get_artist_songs_not_found edge_ydl PydanticV2 every_line
           ["none"; "empty"] empty_world).
  - reflexivity.
  - vm_compute. repeat constructor.
Defined.

Lemma search_songs_without_entries_witness :
  (search_songs edge_ydl PydanticV2 "down" empty_world).1 = Raise (HTTPException 500).
Proof.
  apply (search_songs_without_entries edge_ydl PydanticV2 "down" empty_world)
    with (msg := "ERROR: Unable to download").
  reflexivity.
Defined.

Lemma tracks_are_normalised_witness :
  Forall2 normalised (kept_entries sample_entries)
    (songs_of (search_songs sample_ydl PydanticV2 "bernadya" empty_world).1).
Proof.
  apply (tracks_are_normalised sample_ydl PydanticV2) with
    (query := "bernadya") (w := empty_world)
    (r := sample_listing (search_url "bernadya"))
    (w' := (search_songs sample_ydl PydanticV2 "bernadya" empty_world).2).
  - reflexivity.
  - reflexivity.
  - vm_compute. reflexivity.
Defined.

Lemma cache_keys_come_from_stream_requests_witness :
  ∃ t video_id,
    (t, GetStreamUrl video_id)
      ∈ [(0, SearchSongs "bernadya"); (5, GetStreamUrl "abc"); (9, GetArtistSongs)] ∧
    "stream_abc" = "stream_" +:+ video_id.
Proof.
  apply (cache_keys_come_from_stream_requests sample_ydl PydanticV2 every_line
           [(0, SearchSongs "bernadya"); (5, GetStreamUrl "abc"); (9, GetArtistSongs)]
           empty_world "stream_abc").
  - reflexivity.
  - vm_compute. eexists. reflexivity.
Defined.

Lemma cache_never_evicts_witness :
  is_Some (song_cache
             (serve sample_ydl PydanticV2 every_line
                [(1800000000, GetStreamUrl "zzz"); (3600000000, SearchSongs "q")]
                stale_world) !! "stream_abc").
Proof.
  apply (cache_never_evicts sample_ydl PydanticV2 every_line).
  vm_compute. eexists. reflexivity.
Defined.

(** ** Where the code leaves the specification *)

(** C6, the failing input: three locators, the provider fails on the
    second with a message that is not ASCII, standard output is ASCII.
    The [print] of line 133 raises inside the [except], the outer
    [except] turns it into the 500 of line 138, and the third locator is
    never asked; on a standard output that takes the message the same
    run returns the batches of the first and the third locator. *)
Theorem unprintable_error_aborts_aggregation :
  let urls := ["artist1"; "artist2"; "artist3"] in
  outcomes accent_ydl urls empty_world
    = [Returns (Some (sample_listing "artist1"));
       Raises "ERROR: Vidéo non disponible";
       Returns (Some (sample_listing "artist3"))] ∧
  ascii_stdout (ErrorFetching "artist2" (DownloadError "ERROR: Vidéo non disponible"))
    = false ∧
  (∀ pyd,
     (get_artist_songs_from accent_ydl pyd ascii_stdout urls empty_world).1
       = Raise (HTTPException 500) ∧
     provider_calls (get_artist_songs_from accent_ydl pyd ascii_stdout urls empty_world).2
       = [(YDL_OPTS, "artist1"); (YDL_OPTS, "artist2")] ∧
     artist_url <$> songs_of
         (get_artist_songs_from accent_ydl pyd every_line urls empty_world).1
       = ["artist1"; "artist3"]).
Proof.
  split; [vm_compute; reflexivity|]. split; [vm_compute; reflexivity|].
  intros []; vm_compute; done.
Qed.

(** C7, as stated, fails: the only format of the list has no audio codec
    field, so the list has no audio-only entry in the words of the
    specification, and the resolution returns its url. *)
Lemma no_audio_only_entry_yet_resolved :
  List.filter audio_only_as_specified [no_acodec] = [] ∧
  (codec_ydl STREAM_OPTS (watch_url "abc") (wall_clock empty_world)).1
    = Returns (Some (sample_info [no_acodec])) ∧
  (fetch_stream_url codec_ydl "abc" empty_world).1 = Ok (VStr "u2") ∧
  (get_stream_url codec_ydl "abc" empty_world).1 = Ok (VStr "u2").
Proof. vm_compute. done. Qed.

(** C9, the failing input: an entry whose duration is [None].  The
    default of lines 122 and 201 is for a missing key only: the entry
    gets the duration "None", in a search and in a batch, under both
    versions of pydantic. *)
Theorem null_duration_is_not_zero :
  null_duration_entry !! "duration" = Some VNone ∧
  (∀ pyd,
     duration <$> songs_of (search_songs null_duration_ydl pyd "bernadya" empty_world).1
       = ["None"] ∧
     (λ b, duration <$> songs b) <$>
         songs_of (get_artist_songs_from null_duration_ydl pyd every_line ["artist1"]
                     empty_world).1
       = [["None"]]).
Proof. split; [reflexivity|]. intros []; vm_compute; done. Qed.

(** ** The order of the batches, whatever standard output takes *)

Section order_on_any_console.
Variable ydl : provider.
Variable pyd : pydantic.
Variable stdout : console.




End order_on_any_console.

